(** * Calibration models and footprint overlay of the rover vision stack

    A shallow embedding of
    - [vision/intrinsic/intrinsic_utils.py]  ([IntrinsicClass.load]) and
    - [python_utils/pysubscribers.py]        ([ExtrinsicSubscriber],
      [WaypointSuscriber]),
    followed by the properties established about them.

    Conventions.  Python objects are records; [None] is [option]'s [None];
    dictionaries keyed by strings are [gmap string _]; Python [float]s are
    idealised as exact rationals [Q] (rounding, infinities and NaN are outside
    the model); Python [int]s are [Z].  Code that can raise runs in a small
    state-and-exception monad; a [try]/[except Exception] block is [try_except].
    Functions of modules whose sources are not part of this development
    (numpy, cv2, yaml, os, [vision.extrinsic.extrinsic_utils]) are operations of
    a type class and every statement is quantified over them; the one
    statement that needs to know what [Extrinsic.load] does takes it from the
    specification ([spec_load]). *)

From Stdlib Require Import ZArith QArith Qround Qabs Qminmax Lia Lqa.
From stdpp Require Import base gmap strings pretty list fin_maps.

Set Warnings "-register-all".

Local Open Scope string_scope.
Local Open Scope Z_scope.

(** ** Python core: exceptions, results, indexing, numeric conversions *)

Module Py.

(** The exception classes that the embedded code can meet.  All of them
    derive from [Exception], so [except Exception] catches every one.
    [IndexError] carries the subscripted expression (what the traceback
    shows), [AttributeError] the class of the object and the attribute, the
    others carry the offending name, key or message. *)
Inductive exn : Type :=
| NameError (name : string)
| AttributeError (cls attr : string)
| KeyError (key : string)
| IndexError (site : string)
| TypeError (msg : string)
| ValueError (msg : string)
| ZeroDivisionError
| OSError (msg : string)
| YAMLError (msg : string)
| Exception (msg : string).

(** [str(e)], as interpolated into log messages by [format]. *)
Definition exn_str (e : exn) : string :=
  match e with
  | NameError n => "name '" +:+ n +:+ "' is not defined"
  | AttributeError c a =>
      "'" +:+ c +:+ "' object has no attribute '" +:+ a +:+ "'"
  | KeyError k => "'" +:+ k +:+ "'"
  | IndexError _ => "list index out of range"
  | TypeError m | ValueError m | OSError m | YAMLError m | Exception m => m
  | ZeroDivisionError => "float division by zero"
  end.

(** Outcome of running a piece of code: a value, a raised exception, or
    [OutOfFuel] when a [while] loop of the model was given too few
    iterations (no Python behaviour corresponds to it; the loops below are
    shown never to end this way). *)
Inductive result (A : Type) : Type :=
| Ok (a : A)
| Raise (e : exn)
| OutOfFuel.
Arguments Ok {A} a.
Arguments Raise {A} e.
Arguments OutOfFuel {A}.

(** Outcome of evaluating an expression or of a call that always comes
    back: it returns or it raises. *)
Inductive outcome (A : Type) : Type :=
| Returns (a : A)
| Raises (e : exn).
Arguments Returns {A} a.
Arguments Raises {A} e.

Definition of_outcome {A} (c : outcome A) : result A :=
  match c with
  | Returns a => Ok a
  | Raises e => Raise e
  end.

(** State-and-exception monad: the state is what the code mutates; a raised
    exception keeps the mutations made before it. *)
Definition M (S A : Type) : Type := S -> S * result A.

Definition ret {S A} (a : A) : M S A := fun s => (s, Ok a).
Definition raise {S A} (e : exn) : M S A := fun s => (s, Raise e).
Definition bind {S A B} (m : M S A) (k : A -> M S B) : M S B :=
  fun s => match m s with
           | (s', Ok a) => k a s'
           | (s', Raise e) => (s', Raise e)
           | (s', OutOfFuel) => (s', OutOfFuel)
           end.
Definition get {S} : M S S := fun s => (s, Ok s).
Definition modify {S} (f : S -> S) : M S unit := fun s => (f s, Ok tt).
Definition lift {S A} (r : outcome A) : M S A := fun s => (s, of_outcome r).
Definition lift_result {S A} (r : result A) : M S A := fun s => (s, r).

(** [try: body except Exception as e: handler e]. *)
Definition try_except {S A} (body : M S A) (handler : exn -> M S A) : M S A :=
  fun s => match body s with
           | (s', Ok a) => (s', Ok a)
           | (s', Raise e) => handler e s'
           | (s', OutOfFuel) => (s', OutOfFuel)
           end.

(** [l[i]] on a Python list: negative indices count from the end, anything
    outside [-len, len) raises [IndexError]. *)
Definition index {A} (site : string) (l : list A) (i : Z) : outcome A :=
  let n := Z.of_nat (length l) in
  let j := if i <? 0 then i + n else i in
  if (0 <=? j) && (j <? n)
  then match l !! Z.to_nat j with
       | Some a => Returns a
       | None => Raises (IndexError site)
       end
  else Raises (IndexError site).

(** Reading, on an instance of the class [cls], an attribute that no
    [__init__] assigns and the class does not define. *)
Definition missing_attr {A} (cls attr : string) : outcome A :=
  Raises (AttributeError cls attr).

(** [int(x)] on a float: truncation towards zero.  The argument is the
    exact value of the expression and the conversion is total: the binary
    rounding of a product before the truncation, and the errors of [int] on
    an infinity or a NaN, are outside the model. *)
Definition int (x : Q) : Z := Z.quot (Qnum x) (Z.pos (Qden x)).

(** [np.ceil]. *)
Definition ceil (x : Q) : Z := Qceiling x.

(** [round(x, 2)]: the nearest multiple of 1/100 of the exact value, ties
    to the even one; the binary rounding of the quotient before [round] is
    outside the model. *)
Definition round2 (x : Q) : Q :=
  let y := (x * 100)%Q in
  let f := Qfloor y in
  let r := (y - inject_Z f)%Q in
  let n := match (r ?= 1 # 2)%Q with
           | Lt => f
           | Gt => f + 1
           | Eq => if Z.even f then f else f + 1
           end in
  (inject_Z n / 100)%Q.

(** [a > b] and [a >= b] on numbers. *)
Definition gt (a b : Q) : bool := negb (Qle_bool a b).
Definition ge (a b : Q) : bool := Qle_bool b a.

End Py.

Export Py.

Declare Scope py_scope.
Delimit Scope py_scope with py.
Notation "x <- m ;; k" := (bind m (fun x => k))
  (at level 100, m at next level, right associativity) : py_scope.
Notation "m ;;; k" := (bind m (fun _ => k))
  (at level 100, right associativity) : py_scope.

(** ** Logging

    [vision.utils.vision_utils.printlog] is an output-only helper: it is
    modelled by appending a typed entry to a log. *)

Record LogEntry := { log_type : string; log_msg : string }.

(** A log entry is a warning. *)
Definition is_warning (l : LogEntry) : Prop :=
  log_type l = "WARNING" \/ log_type l = "WARN".

(** ** Parsed YAML documents and the values stored in the models *)

Inductive yaml : Type :=
| YNone
| YBool (b : bool)
| YInt (z : Z)
| YFloat (q : Q)
| YStr (s : string)
| YSeq (l : list yaml)
| YMap (items : list (string * yaml)).

(** A numpy array as far as the models look into it: its shape and its
    flattened contents. *)
Record ndarray := { nd_rows : Z; nd_cols : Z; nd_data : list yaml }.

(** A Python value held in the loaded document or in a model field. *)
Inductive pyval : Type :=
| PYaml (y : yaml)
| PArray (a : ndarray).

(** What an attribute holds after [self.f = v]: YAML [null] is Python's
    [None], i.e. an absent field. *)
Definition to_field (v : pyval) : option pyval :=
  match v with
  | PYaml YNone => None
  | _ => Some v
  end.

(** [type(y).__name__]. *)
Definition yaml_type_name (y : yaml) : string :=
  match y with
  | YNone => "NoneType"
  | YBool _ => "bool"
  | YInt _ => "int"
  | YFloat _ => "float"
  | YStr _ => "str"
  | YSeq _ => "list"
  | YMap _ => "dict"
  end.

(** [y[k]] for a string subscript on a parsed YAML value. *)
Definition yaml_getitem (y : yaml) (k : string) : outcome yaml :=
  match y with
  | YMap items =>
      match list_find (fun kv => kv.1 = k) (reverse items) with
      | Some (_, (_, v)) => Returns v
      | None => Raises (KeyError k)
      end
  | YSeq _ => Raises (TypeError "list indices must be integers or slices, not str")
  | YStr _ => Raises (TypeError "string indices must be integers")
  | _ => Raises (TypeError ("'" +:+ yaml_type_name y
                           +:+ "' object is not subscriptable"))
  end.

(** The object bound to [data] in [IntrinsicClass.load]: a dictionary when
    the document is a mapping (a repeated key keeps its last value), any other
    parsed value otherwise. *)
Inductive document : Type :=
| DDict (m : gmap string pyval)
| DOther (y : yaml).

Definition dict_of_items (items : list (string * yaml)) : gmap string pyval :=
  foldl (fun m kv => <[kv.1 := PYaml kv.2]> m) ∅ items.

Definition document_of_yaml (y : yaml) : document :=
  match y with
  | YMap items => DDict (dict_of_items items)
  | _ => DOther y
  end.

Definition yaml_is_str (k : string) (y : yaml) : bool :=
  match y with
  | YStr s => bool_decide (s = k)
  | _ => false
  end.

(** [k in data]. *)
Definition doc_contains (k : string) (d : document) : outcome bool :=
  match d with
  | DDict m => Returns (bool_decide (is_Some (m !! k)))
  | DOther (YSeq l) => Returns (existsb (yaml_is_str k) l)
  | DOther (YStr s) =>
      Returns (match String.index 0 k s with Some _ => true | None => false end)
  | DOther y => Raises (TypeError ("argument of type '" +:+ yaml_type_name y
                                  +:+ "' is not iterable"))
  end.

(** [data[k]]. *)
Definition doc_getitem (d : document) (k : string) : outcome pyval :=
  match d with
  | DDict m =>
      match m !! k with
      | Some v => Returns v
      | None => Raises (KeyError k)
      end
  | DOther y =>
      match yaml_getitem y k with
      | Returns v => Returns (PYaml v)
      | Raises e => Raises e
      end
  end.

(** [data[k] = v]. *)
Definition doc_setitem (d : document) (k : string) (v : pyval) : outcome document :=
  match d with
  | DDict m => Returns (DDict (<[k := v]> m))
  | DOther (YSeq _) =>
      Raises (TypeError "list indices must be integers or slices, not str")
  | DOther y => Raises (TypeError ("'" +:+ yaml_type_name y
                                  +:+ "' object does not support item assignment"))
  end.

(** [v[k]] for a string subscript on a stored value. *)
Definition pyval_getitem (v : pyval) (k : string) : outcome yaml :=
  match v with
  | PYaml y => yaml_getitem y k
  | PArray _ =>
      Raises (IndexError "only integers and slices are valid array indices")
  end.

(** ** External operations

    Library calls whose code is outside the development.  Each may raise. *)

Class Extern := {
  (** [os.path.join], [os.path.isfile] *)
  os_path_join : string -> string -> string;
  os_path_isfile : string -> bool;
  (** [open(path, 'r')] followed by [yaml.safe_load] *)
  yaml_safe_load : string -> outcome yaml;
  (** [np.array(d).reshape(r, c)] *)
  np_array_reshape : yaml -> yaml -> yaml -> outcome ndarray;
  (** [cv2.initUndistortRectifyMap(mtx, dist, np.array([]), mtx, (w, h), CV_8UC1)] *)
  cv2_initUndistortRectifyMap :
    option pyval -> option pyval -> pyval -> pyval -> outcome (pyval * pyval)
}.

(** ** vision/intrinsic/intrinsic_utils.py *)

Module IntrinsicClass.

(** Instance attributes, exactly those assigned by [__init__]. *)
Record t := {
  file_name : string;
  file_path : string;
  image_width : option pyval;
  image_height : option pyval;
  mtx : option pyval;
  distortion_model : option pyval;
  distortion_coefficients : option pyval;
  rectification_matrix : option pyval;
  projection_matrix : option pyval;
  map1 : option pyval;
  map2 : option pyval
}.

(** [__init__] once the two names have been resolved from the arguments
    or the environment. *)
Definition init (FILE_NAME FILE_PATH : string) : t :=
  {| file_name := FILE_NAME; file_path := FILE_PATH;
     image_width := None; image_height := None; mtx := None;
     distortion_model := None; distortion_coefficients := None;
     rectification_matrix := None; projection_matrix := None;
     map1 := None; map2 := None |}.

(** The state [load] works on: the instance and the log. *)
Record state := { self : t; log : list LogEntry }.

Definition printlog (msg msg_type : string) : M state unit :=
  modify (fun s => {| self := self s;
                      log := log s ++ [{| log_type := msg_type; log_msg := msg |}] |}).

Definition set_self (f : t -> t) : M state unit :=
  modify (fun s => {| self := f (self s); log := log s |}).

Definition set_image_width v (o : t) : t :=
  {| file_name := file_name o; file_path := file_path o;
     image_width := v; image_height := image_height o; mtx := mtx o;
     distortion_model := distortion_model o;
     distortion_coefficients := distortion_coefficients o;
     rectification_matrix := rectification_matrix o;
     projection_matrix := projection_matrix o;
     map1 := map1 o; map2 := map2 o |}.
Definition set_image_height v (o : t) : t :=
  {| file_name := file_name o; file_path := file_path o;
     image_width := image_width o; image_height := v; mtx := mtx o;
     distortion_model := distortion_model o;
     distortion_coefficients := distortion_coefficients o;
     rectification_matrix := rectification_matrix o;
     projection_matrix := projection_matrix o;
     map1 := map1 o; map2 := map2 o |}.
Definition set_mtx v (o : t) : t :=
  {| file_name := file_name o; file_path := file_path o;
     image_width := image_width o; image_height := image_height o; mtx := v;
     distortion_model := distortion_model o;
     distortion_coefficients := distortion_coefficients o;
     rectification_matrix := rectification_matrix o;
     projection_matrix := projection_matrix o;
     map1 := map1 o; map2 := map2 o |}.
Definition set_distortion_model v (o : t) : t :=
  {| file_name := file_name o; file_path := file_path o;
     image_width := image_width o; image_height := image_height o; mtx := mtx o;
     distortion_model := v;
     distortion_coefficients := distortion_coefficients o;
     rectification_matrix := rectification_matrix o;
     projection_matrix := projection_matrix o;
     map1 := map1 o; map2 := map2 o |}.
Definition set_distortion_coefficients v (o : t) : t :=
  {| file_name := file_name o; file_path := file_path o;
     image_width := image_width o; image_height := image_height o; mtx := mtx o;
     distortion_model := distortion_model o;
     distortion_coefficients := v;
     rectification_matrix := rectification_matrix o;
     projection_matrix := projection_matrix o;
     map1 := map1 o; map2 := map2 o |}.
Definition set_rectification_matrix v (o : t) : t :=
  {| file_name := file_name o; file_path := file_path o;
     image_width := image_width o; image_height := image_height o; mtx := mtx o;
     distortion_model := distortion_model o;
     distortion_coefficients := distortion_coefficients o;
     rectification_matrix := v;
     projection_matrix := projection_matrix o;
     map1 := map1 o; map2 := map2 o |}.
Definition set_projection_matrix v (o : t) : t :=
  {| file_name := file_name o; file_path := file_path o;
     image_width := image_width o; image_height := image_height o; mtx := mtx o;
     distortion_model := distortion_model o;
     distortion_coefficients := distortion_coefficients o;
     rectification_matrix := rectification_matrix o;
     projection_matrix := v;
     map1 := map1 o; map2 := map2 o |}.
Definition set_map1 v (o : t) : t :=
  {| file_name := file_name o; file_path := file_path o;
     image_width := image_width o; image_height := image_height o; mtx := mtx o;
     distortion_model := distortion_model o;
     distortion_coefficients := distortion_coefficients o;
     rectification_matrix := rectification_matrix o;
     projection_matrix := projection_matrix o;
     map1 := v; map2 := map2 o |}.
Definition set_map2 v (o : t) : t :=
  {| file_name := file_name o; file_path := file_path o;
     image_width := image_width o; image_height := image_height o; mtx := mtx o;
     distortion_model := distortion_model o;
     distortion_coefficients := distortion_coefficients o;
     rectification_matrix := rectification_matrix o;
     projection_matrix := projection_matrix o;
     map1 := map1 o; map2 := v |}.

(** The nine assignments [self.f = None] of the [except] block. *)
Definition reset (o : t) : t := init (file_name o) (file_path o).

(** Every calibration field is absent. *)
Definition all_absent (o : t) : Prop :=
  image_width o = None /\ image_height o = None /\ mtx o = None /\
  distortion_model o = None /\ distortion_coefficients o = None /\
  rectification_matrix o = None /\ projection_matrix o = None /\
  map1 o = None /\ map2 o = None.

(** Names bound at module level, with the text [format] would print for
    them.  Reading a name that is neither local nor bound here raises
    [NameError]. *)
Definition global (g : gmap string string) (name : string) : outcome string :=
  match g !! name with
  | Some v => Returns v
  | None => Raises (NameError name)
  end.

(** The namespace of [intrinsic_utils] as other modules import it: the
    three imported modules, [printlog] and the class.  [cv2] is never
    imported, and [FILE_NAME] is bound only under
    [if __name__ == '__main__']. *)
Definition module_globals : gmap string string :=
  list_to_map [("np", "<module 'numpy'>"); ("yaml", "<module 'yaml'>");
               ("os", "<module 'os'>"); ("printlog", "<function printlog>");
               ("IntrinsicClass", "<class 'IntrinsicClass'>")].

Definition matrix_keys : list string :=
  ["camera_matrix"; "distortion_coefficients";
   "rectification_matrix"; "projection_matrix"].

Section Load.
Context `{Extern}.
Variable g : gmap string string.

Local Open Scope py_scope.

(** Body of [for key in [...]] for one key. *)
Definition convert_key (data : document) (key : string) : M state document :=
  present <- lift (doc_contains key data) ;;
  if negb present then
    fn <- lift (global g "FILE_NAME") ;;
    printlog ("Intrinsic file " +:+ fn +:+ ", invalid") "ERROR" ;;;
    raise (Exception "invalid file format")
  else
    block <- lift (doc_getitem data key) ;;
    d <- lift (pyval_getitem block "data") ;;
    block <- lift (doc_getitem data key) ;;
    r <- lift (pyval_getitem block "rows") ;;
    block <- lift (doc_getitem data key) ;;
    c <- lift (pyval_getitem block "cols") ;;
    arr <- lift (np_array_reshape d r c) ;;
    lift (doc_setitem data key (PArray arr)).

Fixpoint convert_keys (data : document) (keys : list string) : M state document :=
  match keys with
  | [] => ret data
  | key :: rest =>
      data' <- convert_key data key ;;
      convert_keys data' rest
  end.

(** The [try] block from the point where the file is known to exist. *)
Definition load_file (abs_path : string) : M state unit :=
  doc <- lift (yaml_safe_load abs_path) ;;
  data <- convert_keys (document_of_yaml doc) matrix_keys ;;
  v <- lift (doc_getitem data "image_width") ;;
  set_self (set_image_width (to_field v)) ;;;
  v <- lift (doc_getitem data "image_height") ;;
  set_self (set_image_height (to_field v)) ;;;
  v <- lift (doc_getitem data "camera_matrix") ;;
  set_self (set_mtx (to_field v)) ;;;
  v <- lift (doc_getitem data "distortion_model") ;;
  set_self (set_distortion_model (to_field v)) ;;;
  v <- lift (doc_getitem data "distortion_coefficients") ;;
  set_self (set_distortion_coefficients (to_field v)) ;;;
  v <- lift (doc_getitem data "rectification_matrix") ;;
  set_self (set_rectification_matrix (to_field v)) ;;;
  v <- lift (doc_getitem data "projection_matrix") ;;
  set_self (set_projection_matrix (to_field v)) ;;;
  _ <- lift (global g "cv2") ;;
  s <- get ;;
  w <- lift (missing_attr "IntrinsicClass" "_VIDEO_WIDTH") ;;
  h <- lift (missing_attr "IntrinsicClass" "_VIDEO_HEIGHT") ;;
  maps <- lift (cv2_initUndistortRectifyMap
                  (mtx (self s)) (distortion_coefficients (self s)) w h) ;;
  set_self (set_map1 (to_field maps.1)) ;;;
  set_self (set_map2 (to_field maps.2)) ;;;
  fn <- lift (global g "FILE_NAME") ;;
  printlog (fn +:+ " instrinsic configuration loaded") "OKGREEN".

(** The [except Exception as e] block. *)
Definition load_handler (e : exn) : M state unit :=
  set_self reset ;;;
  fn <- lift (global g "FILE_NAME") ;;
  printlog ("Loading instrinsic configuration file " +:+ fn +:+ ", "
            +:+ exn_str e) "ERROR".

(** [IntrinsicClass.load]. *)
Definition load : M state unit :=
  try_except
    (s <- get ;;
     let abs_path := os_path_join (file_path (self s)) (file_name (self s)) in
     if os_path_isfile abs_path then load_file abs_path
     else printlog ("No instrinsic configuration file " +:+ file_name (self s))
                   "ERROR")
    load_handler.

End Load.

End IntrinsicClass.

(** ** The extrinsic store used by python_utils/pysubscribers.py

    [vision.extrinsic.extrinsic_utils] is imported by pysubscribers.py; what
    follows is the part of its [Extrinsic] object that pysubscribers.py reads
    and writes. *)

Definition Point : Type := Q * Q.
Definition Color : Type := Z * Z * Z.

Module Extrinsic.

(** The dictionary [cams[label]] of a calibrated camera, with the keys that
    pysubscribers.py subscripts. *)
Record CamData := {
  image_size : Z * Z;
  waypoint_area : list Point;
  undistord_cnt : list Point;
  view_coord : Z * Z;
  ppmy : Q;
  M_inv : list (list Q);
  unwarped_size : Z * Z
}.

(** The [Extrinsic] object: [cams] maps a camera label to [None] or to
    its calibration, [update] is the registry of consumer flags. *)
Record t := {
  cams : gmap string (option CamData);
  mtx : option pyval;
  dist : option pyval;
  update : gmap string bool
}.

Definition set_update (u : gmap string bool) (e : t) : t :=
  {| cams := cams e; mtx := mtx e; dist := dist e; update := u |}.

(** [self.extrinsic.cams[label]]. *)
Definition cams_getitem (e : t) (label : string) : outcome (option CamData) :=
  match cams e !! label with
  | Some c => Returns c
  | None => Raises (KeyError label)
  end.

(** [self.extrinsic.update[name]]. *)
Definition update_getitem (e : t) (name : string) : outcome bool :=
  match update e !! name with
  | Some b => Returns b
  | None => Raises (KeyError name)
  end.

End Extrinsic.

(** Functions of [vision.extrinsic.extrinsic_utils] and of cv2 called by
    pysubscribers.py.  [extrinsic_load] is the method [Extrinsic.load]: it
    may change the object in any way and may raise. *)
Class Vision := {
  (** [get_projection_point_src(coords_dst, INVM)] *)
  get_projection_point_src : Q * Q * Q -> list (list Q) -> Point;
  (** [get_distor_point(pt, mtx, dist)] *)
  get_distor_point : Point -> option pyval -> option pyval -> Point;
  (** [cv2.pointPolygonTest(contour, pt, measureDist=True)] *)
  pointPolygonTest : list Point -> Point -> Q;
  (** [Extrinsic.load(mtx, dist, FILE_NAME)] *)
  extrinsic_load :
    Extrinsic.t -> option pyval -> option pyval -> string ->
    Extrinsic.t * outcome unit
}.

(** Drawing primitives applied to a frame, in the order of the calls. *)
Inductive DrawCmd : Type :=
| Circle (center : Z * Z) (radius : Z) (color : Color) (thickness : Z)
| Line (pt1 pt2 : Point) (color : Color) (thickness : Z)
| DrawContours (contour : list Point) (color : Color) (thickness : Z)
| Dotline (p1 p2 : Point) (color : Color) (thickness : Z) (Dl : Z).

(** A frame: its shape [(rows, cols)] and what has been drawn on it. *)
Record Frame := { shape : Z * Z; drawn : list DrawCmd }.

(** The longest prefix of [l] whose elements all pass [keep]. *)
Fixpoint retain_while {A} (keep : A -> bool) (l : list A) : list A :=
  match l with
  | [] => []
  | x :: rest => if keep x then x :: retain_while keep rest else []
  end.

(** ** python_utils/pysubscribers.py *)

Module Pysubscribers.

(** Attributes of an [ExtrinsicSubscriber] besides the two objects it
    creates. *)
Record ExtrinsicSubscriber := {
  _VIDEO_WIDTH : Z;
  _VIDEO_HEIGHT : Z
}.

(** Values [WaypointSuscriber.__init__] reads from the environment. *)
Record Config := {
  _GUI_WAYPOINT_AREA : Z;
  _CURV_OFFSET : Q;
  _BOT_MARGI : Q;
  _BOT_WIDTH : Q;
  _HORZL_LEN : Z;
  _VER_THICK : Z;
  _HOZ_THICK : Z;
  _SHOW_PROJ : Z
}.

Definition default_config : Config :=
  {| _GUI_WAYPOINT_AREA := 1; _CURV_OFFSET := 0.003; _BOT_MARGI := 0.08;
     _BOT_WIDTH := 0.5; _HORZL_LEN := 10; _VER_THICK := 2; _HOZ_THICK := 2;
     _SHOW_PROJ := 0 |}.

(** The palette and the distance thresholds fixed by [__init__]. *)
Definition _COLORS : list Color :=
  [(0, 0, 255); (32, 165, 218); (0, 255, 255); (0, 255, 0)].
Definition _DISTAN_M : list Q := [1.0; 1.5; 3.0; 5.0]%Q.

(** Attributes of a [WaypointSuscriber] besides the shared [extrinsic] and
    [intrinsic] objects. *)
Record WaypointSuscriber := {
  cfg : Config;
  cam_label : string;
  x_norm : option Q;
  y_norm : option Q;
  x_img : option Z;
  y_img : option Z;
  incnt : bool;
  y_limit : option Z;
  AR : Q; BR : Q; CR : Q;
  AL : Q; BL : Q; CL : Q;
  _proj_m : option (list Q);
  _cnt_line : option (Point * Point);
  curvature : Q;
  distord_lines : bool
}.

(** The objects of a running node.  There is one [Extrinsic] object: the
    subscriber creates it and the waypoint consumer receives the same one,
    so a write by either is seen by both. *)
Record World := {
  extrinsic : Extrinsic.t;
  intrinsic : IntrinsicClass.t;
  subscriber : ExtrinsicSubscriber;
  waypoint : WaypointSuscriber;
  (** calls made to [Extrinsic.load], by file name *)
  load_calls : list string;
  log : list LogEntry
}.

Definition set_extrinsic (e : Extrinsic.t) (w : World) : World :=
  {| extrinsic := e; intrinsic := intrinsic w; subscriber := subscriber w;
     waypoint := waypoint w; load_calls := load_calls w; log := log w |}.
Definition set_waypoint (p : WaypointSuscriber) (w : World) : World :=
  {| extrinsic := extrinsic w; intrinsic := intrinsic w;
     subscriber := subscriber w; waypoint := p;
     load_calls := load_calls w; log := log w |}.
Definition add_load_call (f : string) (w : World) : World :=
  {| extrinsic := extrinsic w; intrinsic := intrinsic w;
     subscriber := subscriber w; waypoint := waypoint w;
     load_calls := load_calls w ++ [f]; log := log w |}.
Definition add_log (l : LogEntry) (w : World) : World :=
  {| extrinsic := extrinsic w; intrinsic := intrinsic w;
     subscriber := subscriber w; waypoint := waypoint w;
     load_calls := load_calls w; log := log w ++ [l] |}.

(** Attribute assignments [self.f = v] of the waypoint consumer. *)
Definition set_x_norm v (p : WaypointSuscriber) : WaypointSuscriber :=
  {| cfg := cfg p; cam_label := cam_label p; x_norm := v;
     y_norm := y_norm p; x_img := x_img p; y_img := y_img p;
     incnt := incnt p; y_limit := y_limit p; AR := AR p; BR := BR p;
     CR := CR p; AL := AL p; BL := BL p; CL := CL p;
     _proj_m := _proj_m p; _cnt_line := _cnt_line p;
     curvature := curvature p; distord_lines := distord_lines p |}.
Definition set_y_norm v (p : WaypointSuscriber) : WaypointSuscriber :=
  {| cfg := cfg p; cam_label := cam_label p; x_norm := x_norm p;
     y_norm := v; x_img := x_img p; y_img := y_img p; incnt := incnt p;
     y_limit := y_limit p; AR := AR p; BR := BR p; CR := CR p;
     AL := AL p; BL := BL p; CL := CL p; _proj_m := _proj_m p;
     _cnt_line := _cnt_line p; curvature := curvature p;
     distord_lines := distord_lines p |}.
Definition set_x_img v (p : WaypointSuscriber) : WaypointSuscriber :=
  {| cfg := cfg p; cam_label := cam_label p; x_norm := x_norm p;
     y_norm := y_norm p; x_img := v; y_img := y_img p;
     incnt := incnt p; y_limit := y_limit p; AR := AR p; BR := BR p;
     CR := CR p; AL := AL p; BL := BL p; CL := CL p;
     _proj_m := _proj_m p; _cnt_line := _cnt_line p;
     curvature := curvature p; distord_lines := distord_lines p |}.
Definition set_y_img v (p : WaypointSuscriber) : WaypointSuscriber :=
  {| cfg := cfg p; cam_label := cam_label p; x_norm := x_norm p;
     y_norm := y_norm p; x_img := x_img p; y_img := v;
     incnt := incnt p; y_limit := y_limit p; AR := AR p; BR := BR p;
     CR := CR p; AL := AL p; BL := BL p; CL := CL p;
     _proj_m := _proj_m p; _cnt_line := _cnt_line p;
     curvature := curvature p; distord_lines := distord_lines p |}.
Definition set_y_limit v (p : WaypointSuscriber) : WaypointSuscriber :=
  {| cfg := cfg p; cam_label := cam_label p; x_norm := x_norm p;
     y_norm := y_norm p; x_img := x_img p; y_img := y_img p;
     incnt := incnt p; y_limit := v; AR := AR p; BR := BR p;
     CR := CR p; AL := AL p; BL := BL p; CL := CL p;
     _proj_m := _proj_m p; _cnt_line := _cnt_line p;
     curvature := curvature p; distord_lines := distord_lines p |}.
Definition set_AR v (p : WaypointSuscriber) : WaypointSuscriber :=
  {| cfg := cfg p; cam_label := cam_label p; x_norm := x_norm p;
     y_norm := y_norm p; x_img := x_img p; y_img := y_img p;
     incnt := incnt p; y_limit := y_limit p; AR := v; BR := BR p;
     CR := CR p; AL := AL p; BL := BL p; CL := CL p;
     _proj_m := _proj_m p; _cnt_line := _cnt_line p;
     curvature := curvature p; distord_lines := distord_lines p |}.
Definition set_CR v (p : WaypointSuscriber) : WaypointSuscriber :=
  {| cfg := cfg p; cam_label := cam_label p; x_norm := x_norm p;
     y_norm := y_norm p; x_img := x_img p; y_img := y_img p;
     incnt := incnt p; y_limit := y_limit p; AR := AR p; BR := BR p;
     CR := v; AL := AL p; BL := BL p; CL := CL p; _proj_m := _proj_m p;
     _cnt_line := _cnt_line p; curvature := curvature p;
     distord_lines := distord_lines p |}.
Definition set_AL v (p : WaypointSuscriber) : WaypointSuscriber :=
  {| cfg := cfg p; cam_label := cam_label p; x_norm := x_norm p;
     y_norm := y_norm p; x_img := x_img p; y_img := y_img p;
     incnt := incnt p; y_limit := y_limit p; AR := AR p; BR := BR p;
     CR := CR p; AL := v; BL := BL p; CL := CL p; _proj_m := _proj_m p;
     _cnt_line := _cnt_line p; curvature := curvature p;
     distord_lines := distord_lines p |}.
Definition set_CL v (p : WaypointSuscriber) : WaypointSuscriber :=
  {| cfg := cfg p; cam_label := cam_label p; x_norm := x_norm p;
     y_norm := y_norm p; x_img := x_img p; y_img := y_img p;
     incnt := incnt p; y_limit := y_limit p; AR := AR p; BR := BR p;
     CR := CR p; AL := AL p; BL := BL p; CL := v; _proj_m := _proj_m p;
     _cnt_line := _cnt_line p; curvature := curvature p;
     distord_lines := distord_lines p |}.
Definition set_BL v (p : WaypointSuscriber) : WaypointSuscriber :=
  {| cfg := cfg p; cam_label := cam_label p; x_norm := x_norm p;
     y_norm := y_norm p; x_img := x_img p; y_img := y_img p;
     incnt := incnt p; y_limit := y_limit p; AR := AR p; BR := BR p;
     CR := CR p; AL := AL p; BL := v; CL := CL p; _proj_m := _proj_m p;
     _cnt_line := _cnt_line p; curvature := curvature p;
     distord_lines := distord_lines p |}.
Definition set_proj_m v (p : WaypointSuscriber) : WaypointSuscriber :=
  {| cfg := cfg p; cam_label := cam_label p; x_norm := x_norm p;
     y_norm := y_norm p; x_img := x_img p; y_img := y_img p;
     incnt := incnt p; y_limit := y_limit p; AR := AR p; BR := BR p;
     CR := CR p; AL := AL p; BL := BL p; CL := CL p; _proj_m := v;
     _cnt_line := _cnt_line p; curvature := curvature p;
     distord_lines := distord_lines p |}.
Definition set_cnt_line v (p : WaypointSuscriber) : WaypointSuscriber :=
  {| cfg := cfg p; cam_label := cam_label p; x_norm := x_norm p;
     y_norm := y_norm p; x_img := x_img p; y_img := y_img p;
     incnt := incnt p; y_limit := y_limit p; AR := AR p; BR := BR p;
     CR := CR p; AL := AL p; BL := BL p; CL := CL p;
     _proj_m := _proj_m p; _cnt_line := v; curvature := curvature p;
     distord_lines := distord_lines p |}.

Definition printlog (msg msg_type : string) : M World unit :=
  modify (add_log {| log_type := msg_type; log_msg := msg |}).

(** *** ExtrinsicSubscriber.cb_extrinsic_params *)

(** [self.update] inside [ExtrinsicSubscriber]: [__init__] assigns
    [_VIDEO_WIDTH], [_VIDEO_HEIGHT], [_sub_extrinsic_params], [intrinsic]
    and [extrinsic], and the class defines only its two methods. *)
Definition self_update (w : World) : outcome (gmap string bool) :=
  missing_attr "ExtrinsicSubscriber" "update".

(** [for key, val in d.items(): val = True].  The assignment rebinds the
    local name [val]; the loop returns the locals it leaves behind and has
    no access to the dictionary. *)
Fixpoint for_items (items : list (string * bool)) (locals : option (string * bool))
  : option (string * bool) :=
  match items with
  | [] => locals
  | (key, val) :: rest =>
      let val := true in
      for_items rest (Some (key, val))
  end.

(** ["{}".format(n)] for an integer. *)
Definition str_of_Z (n : Z) : string := pretty n.

Definition extrinsic_file_name (s : ExtrinsicSubscriber) (label : string) : string :=
  "Extrinsic_" +:+ str_of_Z (_VIDEO_WIDTH s) +:+ "_" +:+
  str_of_Z (_VIDEO_HEIGHT s) +:+ "_" +:+ label +:+ ".yaml".

Section Handlers.
Context `{Vision}.
Local Open Scope py_scope.

(** [self.extrinsic.load(mtx=..., dist=..., FILE_NAME=...)]. *)
Definition call_load (FILE_NAME : string) : M World unit :=
  fun w =>
    let '(e', r) := extrinsic_load (extrinsic w)
                      (IntrinsicClass.mtx (intrinsic w))
                      (IntrinsicClass.distortion_coefficients (intrinsic w))
                      FILE_NAME in
    (set_extrinsic e' (add_load_call FILE_NAME w), of_outcome r).

(** The [try] block of [cb_extrinsic_params]; [resolve] is how the
    expression [self.update] evaluates. *)
Definition cb_extrinsic_params_body
    (resolve : World -> outcome (gmap string bool)) (label : string) : M World unit :=
  w <- get ;;
  if bool_decide (label ∈ dom (Extrinsic.cams (extrinsic w))) then
    call_load (extrinsic_file_name (subscriber w) label) ;;;
    w <- get ;;
    d <- lift (resolve w) ;;
    let _ := for_items (map_to_list d) None in
    ret tt
  else ret tt.

Definition cb_extrinsic_params_with
    (resolve : World -> outcome (gmap string bool)) (label : string)
  : M World (option bool) :=
  returned <-
    try_except
      (cb_extrinsic_params_body resolve label ;;; ret None)
      (fun e =>
         printlog ("Error getting extrinsic calibration" +:+
                   "from topic, " +:+ exn_str e) "ERROR" ;;;
         ret (Some (Some false))) ;;
  match returned with
  | Some v => ret v
  | None =>
      printlog ("Extrinsic parameters for CAM" +:+ label +:+ " updated")
               "INFO" ;;;
      ret None
  end.

(** [cb_extrinsic_params(msg)], given [msg.cam_label].  The result is the
    returned value: [Some false] for [return False], [None] when the
    function falls off its end. *)
Definition cb_extrinsic_params (label : string) : M World (option bool) :=
  cb_extrinsic_params_with self_update label.

(** *** WaypointSuscriber.__init__ and cb_screen_point *)

Definition update_waypoint (f : WaypointSuscriber -> WaypointSuscriber) : M World unit :=
  modify (fun w => set_waypoint (f (waypoint w)) w).

(** [self.extrinsic.update[name] = b]: a write into the shared registry. *)
Definition update_setitem (name : string) (b : bool) : M World unit :=
  modify (fun w =>
    set_extrinsic
      (Extrinsic.set_update (<[name := b]> (Extrinsic.update (extrinsic w)))
                            (extrinsic w)) w).

(** [WaypointSuscriber.__init__(parent_node, extrinsic, intrinsic)], the
    environment having been read into [c]. *)
Definition WaypointSuscriber_init (c : Config) : M World unit :=
  update_setitem "WaypointSuscriber" true ;;;
  update_waypoint (fun _ =>
    {| cfg := c; cam_label := "C";
       x_norm := None; y_norm := None; x_img := None; y_img := None;
       incnt := false; y_limit := None;
       AR := 0; BR := 0; CR := 0; AL := 0; BL := 0; CL := 0;
       _proj_m := None; _cnt_line := None;
       curvature := 0; distord_lines := true |}).

(** [a * b] where [a] is an attribute that may hold [None]. *)
Definition mul_attr (a : option Q) (b : Z) : outcome Q :=
  match a with
  | Some x => Returns (x * inject_Z b)%Q
  | None => Raises (TypeError "unsupported operand type(s) for *: 'NoneType' and 'int'")
  end.

(** The [try] block of [cb_screen_point].  The subscripts
    [self.extrinsic.cams[self.cam_label]] are all evaluated on an unchanged
    store, so the camera entry is looked up once. *)
Definition cb_screen_point_body (x y : Q) : M World unit :=
  update_waypoint (set_x_norm (Some x)) ;;;
  update_waypoint (set_y_norm (Some y)) ;;;
  w <- get ;;
  cam <- lift (Extrinsic.cams_getitem (extrinsic w) (cam_label (waypoint w))) ;;
  match cam with
  | None =>
      raise (Exception ("camera " +:+ cam_label (waypoint w) +:+ " no calibrated"))
  | Some cam =>
      xi <- lift (mul_attr (x_norm (waypoint w)) (Extrinsic.image_size cam).1) ;;
      update_waypoint (set_x_img (Some (int xi))) ;;;
      yi <- lift (mul_attr (y_norm (waypoint w)) (Extrinsic.image_size cam).2) ;;
      update_waypoint (set_y_img (Some (int yi))) ;;;
      let ValidPoint :=
        pointPolygonTest (Extrinsic.waypoint_area cam)
                         (inject_Z (int xi), inject_Z (int yi)) in
      ret tt
  end.

(** [cb_screen_point(msg)], given [msg.x] and [msg.y]. *)
Definition cb_screen_point (x y : Q) : M World unit :=
  try_except
    (cb_screen_point_body x y)
    (fun e => printlog ("error procesing waypoint " +:+ exn_str e) "ERROR").

(** *** WaypointSuscriber.draw *)

(** State of [draw]: the node's objects and the frame being drawn on. *)
Record DrawState := { world : World; img : Frame }.

Definition in_world {A} (m : M World A) : M DrawState A :=
  fun s => let '(w', r) := m (world s) in ({| world := w'; img := img s |}, r).
Definition on_img {A} (m : M Frame A) : M DrawState A :=
  fun s => let '(f', r) := m (img s) in ({| world := world s; img := f' |}, r).

(** A call of a cv2 drawing function or of [dotline] on the frame. *)
Definition emit (c : DrawCmd) : M Frame unit :=
  modify (fun f => {| shape := shape f; drawn := drawn f ++ [c] |}).

(** [range(n)]. *)
Definition range (n : Z) : list Z := Z.of_nat <$> seq 0 (Z.to_nat n).

(** [len(l)]. *)
Definition len {A} (l : list A) : Z := Z.of_nat (length l).

(** **** Curve coefficients (the "Variables for polynomial" block) *)

Definition ct_dist (c : Config) (ppmy : Q) : Z :=
  ceil ((_BOT_WIDTH c * 0.5 + _BOT_MARGI c) * ppmy)%Q.

Definition coef_AR (c : Config) (curvature : Q) : Q :=
  if gt curvature 0
  then ((0.01 + _CURV_OFFSET c) * curvature)%Q
  else ((0.01 - _CURV_OFFSET c) * curvature)%Q.

Definition coef_AL (curvature : Q) : Q := (0.01 * curvature)%Q.

Definition set_coefficients (cam : Extrinsic.CamData) (p : WaypointSuscriber)
  : WaypointSuscriber :=
  let d := ct_dist (cfg p) (Extrinsic.ppmy cam) in
  let p := set_AR (coef_AR (cfg p) (curvature p)) p in
  let p := set_AL (coef_AL (curvature p)) p in
  let p := set_CR (inject_Z ((Extrinsic.view_coord cam).1 + d)) p in
  let p := set_CL (inject_Z ((Extrinsic.view_coord cam).1 - d)) p in
  let p := set_AL (coef_AL (curvature p)) p in
  set_BL 0%Q p.

(** [A*(idx_y**2) + B*idx_y + C]. *)
Definition curve (A B C : Q) (idx_y : Z) : Q :=
  (A * inject_Z (idx_y ^ 2) + B * inject_Z idx_y + C)%Q.

(** **** Sampling of the two edge curves *)

(** One edge at one index: the projected point and its signed distance to
    the operating area ([lp]/[rp] and [in_cnt] in the source). *)
Definition project_sample (e : Extrinsic.t) (cam : Extrinsic.CamData)
    (distord : bool) (A B C : Q) (idx_y : Z) : Point * Q :=
  let pt := get_projection_point_src
              (curve A B C idx_y,
               inject_Z ((Extrinsic.view_coord cam).2 + idx_y), 1%Q)
              (Extrinsic.M_inv cam) in
  if distord then
    let pt := get_distor_point pt (Extrinsic.mtx e) (Extrinsic.dist e) in
    (pt, pointPolygonTest (Extrinsic.waypoint_area cam) pt)
  else
    (pt, pointPolygonTest (Extrinsic.undistord_cnt cam) pt).

(** One side's part of the loop body: [out] is [lout]/[rout], [proj] is
    [left_proj]/[right_proj]. *)
Definition sample_side (e : Extrinsic.t) (cam : Extrinsic.CamData)
    (distord : bool) (A B C : Q) (idx_y : Z)
    (out : bool) (proj : list Point) : bool * list Point :=
  if negb out then
    let '(pt, in_cnt) := project_sample e cam distord A B C idx_y in
    if ge in_cnt 0 then (out, (proj ++ [pt])%list) else (true, proj)
  else (out, proj).

(** [while idx_y > limit: ...; idx_y -= increment; increment += 1]. *)
Fixpoint sample_loop (fuel : nat) (e : Extrinsic.t) (cam : Extrinsic.CamData)
    (p : WaypointSuscriber) (limit : Z) (idx_y increment : Z)
    (lout rout : bool) (left_proj right_proj : list Point)
  : result (list Point * list Point) :=
  match fuel with
  | O => OutOfFuel
  | S fuel =>
      if idx_y >? limit then
        let '(lout, left_proj) :=
          sample_side e cam (distord_lines p) (AL p) (BL p) (CL p) idx_y
                      lout left_proj in
        let '(rout, right_proj) :=
          sample_side e cam (distord_lines p) (AR p) (BR p) (CR p) idx_y
                      rout right_proj in
        sample_loop fuel e cam p limit (idx_y - increment) (increment + 1)
                    lout rout left_proj right_proj
      else Ok (left_proj, right_proj)
  end.

(** First sampled index: the near edge of the bird's-eye view. *)
Definition first_idx_y (cam : Extrinsic.CamData) : Z :=
  - ((Extrinsic.view_coord cam).2 - (Extrinsic.unwarped_size cam).2).

(** [- view_coord[1] + self.y_limit]. *)
Definition far_limit (cam : Extrinsic.CamData) (yl : Z) : Z :=
  - (Extrinsic.view_coord cam).2 + yl.

(** The "Get Left and right line points" block.  The index falls by at
    least one per iteration, so its distance to the limit bounds the number
    of iterations. *)
Definition sample_curves (e : Extrinsic.t) (cam : Extrinsic.CamData)
    (p : WaypointSuscriber) (yl : Z) : result (list Point * list Point) :=
  let idx_y := first_idx_y cam in
  let limit := far_limit cam yl in
  sample_loop (S (Z.to_nat (idx_y - limit))) e cam p limit idx_y 1
              false false [] [].

(** **** Rendering of one side ("Draw robots projection lines") *)

Inductive Side : Type := LeftSide | RightSide.

(** End of the horizontal tick: [x + _HORZL_LEN] on the left side,
    [x - _HORZL_LEN] on the right side. *)
Definition tick_end (c : Config) (sd : Side) (pt : Point) : Point :=
  match sd with
  | LeftSide => (pt.1 + inject_Z (_HORZL_LEN c), pt.2)%Q
  | RightSide => (pt.1 - inject_Z (_HORZL_LEN c), pt.2)%Q
  end.

(** [self._proj_m[idx]]; the attribute holds [None] until the
    "Update params" block has run. *)
Definition proj_m_getitem (pm : option (list Q)) (idx : Z) : outcome Q :=
  match pm with
  | Some l => index "self._proj_m" l idx
  | None => Raises (TypeError "'NoneType' object is not subscriptable")
  end.

(** [thickness_idx -= 1 if thickness_idx > 0 else thickness_idx]. *)
Definition step_thickness (thickness_idx : Z) : Z :=
  thickness_idx - (if thickness_idx >? 0 then 1 else thickness_idx).

(** [while self._proj_m[idx] > self._DISTAN_M[color_idx]: ...]; returns
    [(color_idx, thickness_idx)]. *)
Fixpoint tick_loop (fuel : nat) (c : Config) (sd : Side) (proj : list Point)
    (pm : option (list Q)) (idx : Z) (color_idx thickness_idx : Z)
  : M Frame (Z * Z) :=
  match fuel with
  | O => lift_result OutOfFuel
  | S fuel =>
      m <- lift (proj_m_getitem pm idx) ;;
      d <- lift (index "self._DISTAN_M" _DISTAN_M color_idx) ;;
      if gt m d then
        let color_idx := color_idx + 1 in
        let thickness_idx := step_thickness thickness_idx in
        pt <- lift (index "proj" proj idx) ;;
        col <- lift (index "self._COLORS" _COLORS color_idx) ;;
        emit (Line pt (tick_end c sd pt) col (_HOZ_THICK c + thickness_idx)) ;;;
        tick_loop fuel c sd proj pm idx color_idx thickness_idx
      else ret (color_idx, thickness_idx)
  end.

(** [for idx in range(len(proj) - 1): ...] over the remaining indices;
    returns the final [(color_idx, thickness_idx)]. *)
Fixpoint side_loop (c : Config) (sd : Side) (proj : list Point)
    (pm : option (list Q)) (idxs : list Z) (color_idx thickness_idx : Z)
  : M Frame (Z * Z) :=
  match idxs with
  | [] => ret (color_idx, thickness_idx)
  | idx :: rest =>
      m <- lift (proj_m_getitem pm idx) ;;
      last <- lift (index "self._DISTAN_M" _DISTAN_M (-1)) ;;
      if gt m last then ret (color_idx, thickness_idx)
      else
        ct <- tick_loop (S (length _DISTAN_M)) c sd proj pm idx
                        color_idx thickness_idx ;;
        pt1 <- lift (index "proj" proj idx) ;;
        pt2 <- lift (index "proj" proj (idx + 1)) ;;
        col <- lift (index "self._COLORS" _COLORS ct.1) ;;
        emit (Line pt1 pt2 col (_VER_THICK c + ct.2)) ;;;
        side_loop c sd proj pm rest ct.1 ct.2
  end.

(** The "Left side" / "right side" block. *)
Definition render_side (c : Config) (sd : Side) (proj : list Point)
    (pm : option (list Q)) : M Frame (Z * Z) :=
  side_loop c sd proj pm (range (len proj - 1)) 0 (len _COLORS).

(** How the loop over the segment indices can end. *)
Definition loop_end (r : result (Z * Z)) : Prop :=
  match r with
  | Ok (color_idx, thickness_idx) =>
      0 <= color_idx <= 3 /\ thickness_idx = len _COLORS - color_idx
  | Raise e =>
      e = TypeError "'NoneType' object is not subscriptable" \/
      e = IndexError "self._proj_m"
  | OutOfFuel => False
  end.

(** **** The "Update params" block *)

(** [while idx_y >= limit: self._proj_m.append(round(abs(idx_y)/ppmy, 2)); ...];
    dividing by a zero [ppmy] raises. *)
Fixpoint proj_m_loop (fuel : nat) (ppmy : Q) (limit : Z) (idx_y increment : Z)
  : M World unit :=
  match fuel with
  | O => lift_result OutOfFuel
  | S fuel =>
      if idx_y >=? limit then
        (if Qeq_bool ppmy 0 then raise ZeroDivisionError else ret tt) ;;;
        let v := round2 (Qabs (inject_Z idx_y) / ppmy)%Q in
        update_waypoint (fun p =>
          set_proj_m (match _proj_m p with
                      | Some l => Some (l ++ [v])%list
                      | None => None
                      end) p) ;;;
        proj_m_loop fuel ppmy limit (idx_y - increment) (increment + 1)
      else ret tt
  end.

Definition update_params (cam : Extrinsic.CamData) : M World unit :=
  last <- lift (index "self._DISTAN_M" _DISTAN_M (-1)) ;;
  let yl := int (inject_Z (Extrinsic.view_coord cam).2 - last * Extrinsic.ppmy cam)%Q in
  update_waypoint (set_y_limit (Some yl)) ;;;
  w <- get ;;
  let e := extrinsic w in
  let sp := get_distor_point
              (get_projection_point_src
                 (inject_Z (Extrinsic.view_coord cam).1, inject_Z yl, 1%Q)
                 (Extrinsic.M_inv cam))
              (Extrinsic.mtx e) (Extrinsic.dist e) in
  let ip := get_distor_point
              (get_projection_point_src
                 (inject_Z (Extrinsic.view_coord cam).1,
                  inject_Z (Extrinsic.unwarped_size cam).2, 1%Q)
                 (Extrinsic.M_inv cam))
              (Extrinsic.mtx e) (Extrinsic.dist e) in
  update_waypoint (set_cnt_line (Some (sp, ip))) ;;;
  update_waypoint (set_proj_m (Some [])) ;;;
  let idx_y := first_idx_y cam in
  let limit := far_limit cam yl in
  proj_m_loop (S (Z.to_nat (idx_y - limit + 1))) (Extrinsic.ppmy cam) limit idx_y 1 ;;;
  update_setitem "WaypointSuscriber" false.

(** **** draw *)

(** The two circles of the waypoint marker. *)
Definition draw_marker : M DrawState unit :=
  s <- get ;;
  match x_norm (waypoint (world s)), y_norm (waypoint (world s)) with
  | Some x, Some y =>
      let center := (int (x * inject_Z (shape (img s)).2)%Q,
                     int (y * inject_Z (shape (img s)).1)%Q) in
      on_img (emit (Circle center 10 (255, 255, 255) 1)) ;;;
      on_img (emit (Circle center 2 (0, 0, 255) (-1)))
  | _, _ => ret tt
  end.

(** [- view_coord[1] + self.y_limit] needs a number in [y_limit]. *)
Definition y_limit_value (p : WaypointSuscriber) : outcome Z :=
  match y_limit p with
  | Some yl => Returns yl
  | None => Raises (TypeError "unsupported operand type(s) for +: 'int' and 'NoneType'")
  end.

(** [self._cnt_line[0]], [self._cnt_line[1]]. *)
Definition cnt_line_value (p : WaypointSuscriber) : outcome (Point * Point) :=
  match _cnt_line p with
  | Some l => Returns l
  | None => Raises (TypeError "'NoneType' object is not subscriptable")
  end.

(** [draw] from the point where the camera is known to be calibrated. *)
Definition draw_calibrated (cam : Extrinsic.CamData) : M DrawState unit :=
  s <- get ;;
  (if negb (_GUI_WAYPOINT_AREA (cfg (waypoint (world s))) =? 0)
   then on_img (emit (DrawContours (Extrinsic.waypoint_area cam) (0, 200, 0) 2))
   else ret tt) ;;;
  flag <- lift (Extrinsic.update_getitem (extrinsic (world s)) "WaypointSuscriber") ;;
  (if flag then in_world (update_params cam) else ret tt) ;;;
  in_world (update_waypoint (set_coefficients cam)) ;;;
  s <- get ;;
  let p := waypoint (world s) in
  yl <- lift (y_limit_value p) ;;
  projs <- lift_result (sample_curves (extrinsic (world s)) cam p yl) ;;
  _ <- on_img (render_side (cfg p) LeftSide projs.1 (_proj_m p)) ;;
  _ <- on_img (render_side (cfg p) RightSide projs.2 (_proj_m p)) ;;
  l <- lift (cnt_line_value p) ;;
  on_img (emit (Dotline l.1 l.2 (255, 255, 255) (_VER_THICK (cfg p)) 10)).

(** [WaypointSuscriber.draw(img)]. *)
Definition draw : M DrawState unit :=
  draw_marker ;;;
  s <- get ;;
  cam <- lift (Extrinsic.cams_getitem (extrinsic (world s))
                                      (cam_label (waypoint (world s)))) ;;
  match cam with
  | None => ret tt
  | Some cam =>
      match Extrinsic.mtx (extrinsic (world s)) with
      | None => ret tt
      | Some _ => draw_calibrated cam
      end
  end.

(** **** The sampled index sequence *)

(** The values taken by [idx_y] in the sampling loop: they start at the
    near edge and fall by 1, 2, 3, ... while they stay above the limit. *)
Fixpoint sample_indices (fuel : nat) (limit idx_y increment : Z) : list Z :=
  match fuel with
  | O => []
  | S fuel =>
      if idx_y >? limit
      then idx_y :: sample_indices fuel limit (idx_y - increment) (increment + 1)
      else []
  end.

Definition sampled_indices (cam : Extrinsic.CamData) (yl : Z) : list Z :=
  let idx_y := first_idx_y cam in
  let limit := far_limit cam yl in
  sample_indices (S (Z.to_nat (idx_y - limit))) limit idx_y 1.

(** Projected point and containment test (signed distance not negative)
    of one edge at one index. *)
Definition sample_point (e : Extrinsic.t) (cam : Extrinsic.CamData)
    (distord : bool) (A B C : Q) (idx_y : Z) : Point :=
  (project_sample e cam distord A B C idx_y).1.

Definition sample_inside (e : Extrinsic.t) (cam : Extrinsic.CamData)
    (distord : bool) (A B C : Q) (idx_y : Z) : bool :=
  ge (project_sample e cam distord A B C idx_y).2 0.

(** The points one side retains from a list of indices; [out] is the
    side's flag on entry. *)
Definition retained (e : Extrinsic.t) (cam : Extrinsic.CamData)
    (distord : bool) (A B C : Q) (out : bool) (idxs : list Z) : list Point :=
  if out then []
  else sample_point e cam distord A B C
       <$> retain_while (sample_inside e cam distord A B C) idxs.

(** **** The distance bands *)

(** Number of thresholds before the last one that the distance [m]
    exceeds. *)
Definition band (m : Q) : Z := len (List.filter (gt m) (removelast _DISTAN_M)).

Definition color_at (k : Z) : Color := nth (Z.to_nat k) _COLORS (0, 0, 0).

(** The tick drawn when the colour index becomes [k], and the segment
    drawn while it is [k]; the thickness index is then [len(_COLORS) - k]. *)
Definition tick_line (c : Config) (sd : Side) (pt : Point) (k : Z) : DrawCmd :=
  Line pt (tick_end c sd pt) (color_at k) (_HOZ_THICK c + (len _COLORS - k)).

Definition segment_line (c : Config) (pt1 pt2 : Point) (k : Z) : DrawCmd :=
  Line pt1 pt2 (color_at k) (_VER_THICK c + (len _COLORS - k)).

(** The ticks drawn while the colour index moves from [k] to [k']. *)
Definition ticks (c : Config) (sd : Side) (pt : Point) (k k' : Z) : list DrawCmd :=
  (fun j => tick_line c sd pt (k + 1 + Z.of_nat j)) <$> seq 0 (Z.to_nat (k' - k)).

Definition draw_on (f : Frame) (cmds : list DrawCmd) : Frame :=
  {| shape := shape f; drawn := drawn f ++ cmds |}.

(** A line of one of the bands: its colour is an entry [k] of the palette
    and its thickness is a base thickness plus [len(_COLORS) - k]. *)
Definition banded_line (c : Config) (cmd : DrawCmd) : Prop :=
  exists pt1 pt2 k,
    0 <= k < len _COLORS /\
    (cmd = Line pt1 pt2 (color_at k) (_HOZ_THICK c + (len _COLORS - k)) \/
     cmd = Line pt1 pt2 (color_at k) (_VER_THICK c + (len _COLORS - k))).

End Handlers.

(** **** The distance table *)

(** [round(abs(idx_y)/ppmy, 2)]: the entry of [_proj_m] for one index. *)
Definition distance_of (ppmy : Q) (idx_y : Z) : Q :=
  round2 (Qabs (inject_Z idx_y) / ppmy)%Q.

(** The indices visited by the loop that fills [_proj_m]: its test is
    [idx_y >= limit], i.e. [idx_y > limit - 1]. *)
Definition distance_indices (cam : Extrinsic.CamData) (yl : Z) : list Z :=
  let idx_y := first_idx_y cam in
  let limit := far_limit cam yl in
  sample_indices (S (Z.to_nat (idx_y - limit + 1))) (limit - 1) idx_y 1.

(** The far limit computed by the "Update params" block. *)
Definition fresh_y_limit (cam : Extrinsic.CamData) : Z :=
  int (inject_Z (Extrinsic.view_coord cam).2 - 5.0 * Extrinsic.ppmy cam)%Q.

(** *** WaypointSuscriber.draw_in_proj *)

(** cv2 and numpy calls of [draw_in_proj]; images are frames. *)
Class Imaging := {
  (** [cv2.undistort(img, mtx, dist, None, None)] *)
  cv2_undistort : Frame -> pyval -> pyval -> outcome Frame;
  (** [np.zeros((rows, cols, 3), np.uint8)] *)
  np_zeros : Z -> Z -> Frame;
  (** [cv2.warpPerspective(img, M, size)] *)
  cv2_warpPerspective : Frame -> list (list Q) -> Z * Z -> outcome Frame;
  (** [cv2.imshow(win_name, img); cv2.waitKey(1)] *)
  cv2_imshow : string -> Frame -> outcome unit
}.

(** Run drawing code on a local image: the state of the caller is not
    touched, the drawn image is handed back with the value. *)
Definition run_on {S A} (f : Frame) (m : M Frame A) : M S (Frame * A) :=
  fun s =>
    match m f with
    | (f', Ok a) => (s, Ok (f', a))
    | (_, Raise e) => (s, Raise e)
    | (_, OutOfFuel) => (s, OutOfFuel)
    end.

(** [while idx_y >= limit: left_proj.append(...); right_proj.append(...); ...]
    of [draw_in_proj]: both edges at every index, no containment test. *)
Fixpoint proj_sample_loop (fuel : nat) (p : WaypointSuscriber) (view_y : Z)
    (limit : Z) (idx_y increment : Z) (left_proj right_proj : list Point)
  : result (list Point * list Point) :=
  match fuel with
  | O => OutOfFuel
  | S fuel =>
      if idx_y >=? limit then
        let lp := (inject_Z (int (curve (AL p) (BL p) (CL p) idx_y)),
                   inject_Z (view_y + idx_y)) in
        let rp := (inject_Z (int (curve (AR p) (BR p) (CR p) idx_y)),
                   inject_Z (view_y + idx_y)) in
        proj_sample_loop fuel p view_y limit (idx_y - increment) (increment + 1)
                         (left_proj ++ [lp]) (right_proj ++ [rp])
      else Ok (left_proj, right_proj)
  end.

Section Projection.
Context `{Imaging}.
Local Open Scope py_scope.

(** The inner [while] of [draw_in_proj]: a tick on each side per step. *)
Fixpoint proj_tick_loop (fuel : nat) (c : Config) (left_proj right_proj : list Point)
    (pm : option (list Q)) (idx : Z) (color_idx thickness_idx : Z)
  : M Frame (Z * Z) :=
  match fuel with
  | O => lift_result OutOfFuel
  | S fuel =>
      m <- lift (proj_m_getitem pm idx) ;;
      d <- lift (index "self._DISTAN_M" _DISTAN_M color_idx) ;;
      if gt m d then
        let color_idx := color_idx + 1 in
        let thickness_idx := step_thickness thickness_idx in
        lp <- lift (index "left_proj" left_proj idx) ;;
        col <- lift (index "self._COLORS" _COLORS color_idx) ;;
        emit (Line lp (tick_end c LeftSide lp) col (_HOZ_THICK c + thickness_idx)) ;;;
        rp <- lift (index "right_proj" right_proj idx) ;;
        col <- lift (index "self._COLORS" _COLORS color_idx) ;;
        emit (Line rp (tick_end c RightSide rp) col (_HOZ_THICK c + thickness_idx)) ;;;
        proj_tick_loop fuel c left_proj right_proj pm idx color_idx thickness_idx
      else ret (color_idx, thickness_idx)
  end.

(** The [for] loop of [draw_in_proj]. *)
Fixpoint proj_side_loop (c : Config) (left_proj right_proj : list Point)
    (pm : option (list Q)) (idxs : list Z) (color_idx thickness_idx : Z)
  : M Frame (Z * Z) :=
  match idxs with
  | [] => ret (color_idx, thickness_idx)
  | idx :: rest =>
      m <- lift (proj_m_getitem pm idx) ;;
      last <- lift (index "self._DISTAN_M" _DISTAN_M (-1)) ;;
      if gt m last then ret (color_idx, thickness_idx)
      else
        ct <- proj_tick_loop (S (length _DISTAN_M)) c left_proj right_proj pm idx
                             color_idx thickness_idx ;;
        l1 <- lift (index "left_proj" left_proj idx) ;;
        l2 <- lift (index "left_proj" left_proj (idx + 1)) ;;
        col <- lift (index "self._COLORS" _COLORS ct.1) ;;
        emit (Line l1 l2 col (_VER_THICK c + ct.2)) ;;;
        r1 <- lift (index "right_proj" right_proj idx) ;;
        r2 <- lift (index "right_proj" right_proj (idx + 1)) ;;
        col <- lift (index "self._COLORS" _COLORS ct.1) ;;
        emit (Line r1 r2 col (_VER_THICK c + ct.2)) ;;;
        proj_side_loop c left_proj right_proj pm rest ct.1 ct.2
  end.

(** The first statement of [draw_in_proj]: the conditional expression that
    rebinds [img_src].  [_mtx], [_dist] and [mono] are not attributes of a
    [WaypointSuscriber]. *)
Definition proj_source {S} (img_src : option Frame) : M S Frame :=
  match img_src with
  | Some im =>
      mtx <- lift (missing_attr "WaypointSuscriber" "_mtx") ;;
      dist <- lift (missing_attr "WaypointSuscriber" "_dist") ;;
      lift (cv2_undistort im mtx dist)
  | None =>
      size <- lift (missing_attr (A := Z * Z) "WaypointSuscriber" "mono") ;;
      size' <- lift (missing_attr (A := Z * Z) "WaypointSuscriber" "mono") ;;
      ret (np_zeros size.2 size'.1)
  end.

(** [draw_in_proj(img_src, curvature, win_name)].  The state is the list of
    windows shown; the consumer [p] is only read.  [_M], [_UNWARPED_SIZE]
    and [_view_cord] are not attributes of a [WaypointSuscriber] either. *)
Definition draw_in_proj (p : WaypointSuscriber) (img_src : option Frame)
    (win_name : string) : M (list (string * Frame)) unit :=
  img_src <- proj_source img_src ;;
  M_ <- lift (missing_attr "WaypointSuscriber" "_M") ;;
  us0 <- lift (missing_attr (A := Z * Z) "WaypointSuscriber" "_UNWARPED_SIZE") ;;
  vc1 <- lift (missing_attr (A := Z * Z) "WaypointSuscriber" "_view_cord") ;;
  img_dst <- lift (cv2_warpPerspective img_src M_ (us0.1, vc1.2)) ;;
  us <- lift (missing_attr (A := Z * Z) "WaypointSuscriber" "_UNWARPED_SIZE") ;;
  d1 <- run_on img_dst
          (emit (Line (0%Q, inject_Z us.2) (inject_Z us.1, inject_Z us.2) (0, 0, 255) 1)) ;;
  vc <- lift (missing_attr (A := Z * Z) "WaypointSuscriber" "_view_cord") ;;
  d2 <- run_on d1.1
          (emit (Line (inject_Z vc.1, 0%Q) (inject_Z vc.1, inject_Z vc.2) (0, 255, 255) 1)) ;;
  center <- lift (missing_attr (A := Z * Z) "WaypointSuscriber" "mono") ;;
  d3 <- run_on d2.1 (emit (Circle center 5 (0, 0, 255) (-1))) ;;
  yl <- lift (y_limit_value p) ;;
  let idx_y := - (vc.2 - us.2) in
  let limit := - vc.2 + yl in
  projs <- lift_result
             (proj_sample_loop (S (Z.to_nat (idx_y - limit + 1))) p vc.2 limit
                               idx_y 1 [] []) ;;
  d4 <- run_on d3.1
          (proj_side_loop (cfg p) projs.1 projs.2 (_proj_m p)
                          (range (len projs.1 - 1)) 0 (len _COLORS)) ;;
  lift (cv2_imshow win_name d4.1).

End Projection.

(** *** Robot *)

Record Robot := { stream_stitch : bool; stream_rear_cam : bool }.

(** [Robot.__init__]. *)
Definition Robot_init : Robot :=
  {| stream_stitch := false; stream_rear_cam := false |}.

(** [cb_video_streaming_rear_cam(data)] and [cb_video_streaming_stitch(data)];
    [data] is the payload of the [Bool] message. *)
Definition cb_video_streaming_rear_cam (data : bool) (r : Robot) : Robot :=
  {| stream_stitch := stream_stitch r;
     stream_rear_cam := negb (stream_rear_cam r) |}.

Definition cb_video_streaming_stitch (data : bool) (r : Robot) : Robot :=
  {| stream_stitch := negb (stream_stitch r);
     stream_rear_cam := stream_rear_cam r |}.

(** A message on one of the two topics. *)
Inductive RobotMsg : Type :=
| RearCam (data : bool)
| Stitch (data : bool).

(** The callbacks run one message at a time, in order of arrival. *)
Definition deliver (r : Robot) (m : RobotMsg) : Robot :=
  match m with
  | RearCam data => cb_video_streaming_rear_cam data r
  | Stitch data => cb_video_streaming_stitch data r
  end.

End Pysubscribers.

(** ** Descriptions used by the statements *)

(** The log of [s'] is the log of [s] followed by entries of type ERROR. *)
Definition adds_only_errors (s s' : IntrinsicClass.state) : Prop :=
  exists new,
    IntrinsicClass.log s' = (IntrinsicClass.log s ++ new)%list /\
    Forall (fun l => log_type l = "ERROR") new.

(** Every run of [m] adds only ERROR entries to the log. *)
Definition only_errors {A} (m : M IntrinsicClass.state A) : Prop :=
  forall s, adds_only_errors s (m s).1.

(** The two circles of the waypoint marker on a frame of the given shape,
    or nothing when no click is stored. *)
Definition marker_cmds (p : Pysubscribers.WaypointSuscriber) (shape : Z * Z)
  : list DrawCmd :=
  match Pysubscribers.x_norm p, Pysubscribers.y_norm p with
  | Some x, Some y =>
      let center := (int (x * inject_Z shape.2)%Q, int (y * inject_Z shape.1)%Q) in
      [Circle center 10 (255, 255, 255) 1; Circle center 2 (0, 0, 255) (-1)]
  | _, _ => []
  end.

(** The stored click, if there is one, lies inside the frame: both
    normalised coordinates are between 0 and 1. *)
Definition click_in_frame (p : Pysubscribers.WaypointSuscriber) : Prop :=
  match Pysubscribers.x_norm p, Pysubscribers.y_norm p with
  | Some x, Some y => ((0 <= x /\ x <= 1) /\ (0 <= y /\ y <= 1))%Q
  | _, _ => True
  end.

(** [cmds] is the marker of the stored click on a frame of the given
    shape: nothing without a click, else a white ring of radius 10 and a red
    disc of radius 2 around one centre that lies within the frame. *)
Definition marker_in_frame (p : Pysubscribers.WaypointSuscriber) (shape : Z * Z)
    (cmds : list DrawCmd) : Prop :=
  match Pysubscribers.x_norm p, Pysubscribers.y_norm p with
  | Some _, Some _ =>
      exists u v, 0 <= u <= shape.2 /\ 0 <= v <= shape.1 /\
        cmds = [Circle (u, v) 10 (255, 255, 255) 1; Circle (u, v) 2 (0, 0, 255) (-1)]
  | _, _ => cmds = []
  end.

(** The consumer after the "Update params" block: far limit, centre line
    and distance table recomputed from the calibration. *)
Definition refreshed `{Vision} (e : Extrinsic.t) (cam : Extrinsic.CamData)
    (p : Pysubscribers.WaypointSuscriber) : Pysubscribers.WaypointSuscriber :=
  let yl := Pysubscribers.fresh_y_limit cam in
  let project y :=
    get_distor_point
      (get_projection_point_src
         (inject_Z (Extrinsic.view_coord cam).1, inject_Z y, 1%Q)
         (Extrinsic.M_inv cam))
      (Extrinsic.mtx e) (Extrinsic.dist e) in
  Pysubscribers.set_proj_m
    (Some (Pysubscribers.distance_of (Extrinsic.ppmy cam)
           <$> Pysubscribers.distance_indices cam yl))
    (Pysubscribers.set_cnt_line
       (Some (project yl, project (Extrinsic.unwarped_size cam).2))
       (Pysubscribers.set_y_limit (Some yl) p)).

(** The node after the "Update params" block: the consumer's cache is
    recomputed and its flag is cleared. *)
Definition params_updated `{Vision} (cam : Extrinsic.CamData)
    (w : Pysubscribers.World) : Pysubscribers.World :=
  (Pysubscribers.update_setitem "WaypointSuscriber" false
     (Pysubscribers.set_waypoint
        (refreshed (Pysubscribers.extrinsic w) cam (Pysubscribers.waypoint w))
        w)).1.

(** Started on the node [w], the code [m] returns a value satisfying [R]
    and leaves the node [w']. *)
Definition runs {A} (w : Pysubscribers.World) (m : M Pysubscribers.DrawState A)
    (w' : Pysubscribers.World) (R : A -> Prop) : Prop :=
  forall s, Pysubscribers.world s = w ->
    Pysubscribers.world (m s).1 = w' /\ exists a, (m s).2 = Ok a /\ R a.

(** The code [m] leaves the node as it finds it, however it ends. *)
Definition keeps_world {A} (m : M Pysubscribers.DrawState A) : Prop :=
  forall s, Pysubscribers.world (m s).1 = Pysubscribers.world s.

(** Started on the node [w], the code [m] leaves the node [w'], whether
    it returns or raises. *)
Definition ends {A} (w : Pysubscribers.World) (m : M Pysubscribers.DrawState A)
    (w' : Pysubscribers.World) : Prop :=
  forall s, Pysubscribers.world s = w -> Pysubscribers.world (m s).1 = w'.

(** Started on the node [w], the code [m] does not return: it ends in an
    exception. *)
Definition fails {A} (w : Pysubscribers.World) (m : M Pysubscribers.DrawState A)
  : Prop :=
  forall s, Pysubscribers.world s = w -> forall a, (m s).2 <> Ok a.

(** The consumer's camera is known to the store and has no extrinsic
    calibration, or the store has no camera matrix. *)
Definition uncalibrated (w : Pysubscribers.World) : Prop :=
  match Extrinsic.cams (Pysubscribers.extrinsic w)
        !! Pysubscribers.cam_label (Pysubscribers.waypoint w) with
  | Some None => True
  | Some (Some _) => Extrinsic.mtx (Pysubscribers.extrinsic w) = None
  | None => False
  end.

(** The consumer's camera is calibrated with [cam], the store has a camera
    matrix, and the consumer's flag in the registry is [flag]. *)
Definition calibrated_with (cam : Extrinsic.CamData) (flag : bool)
    (w : Pysubscribers.World) : Prop :=
  Extrinsic.cams (Pysubscribers.extrinsic w)
    !! Pysubscribers.cam_label (Pysubscribers.waypoint w) = Some (Some cam) /\
  is_Some (Extrinsic.mtx (Pysubscribers.extrinsic w)) /\
  Extrinsic.update (Pysubscribers.extrinsic w) !! "WaypointSuscriber" = Some flag.


(** Number of messages of each topic in a sequence. *)
Definition count_rear_cam (msgs : list Pysubscribers.RobotMsg) : nat :=
  length (List.filter (fun m => match m with
                                | Pysubscribers.RearCam _ => true
                                | _ => false
                                end) msgs).
Definition count_stitch (msgs : list Pysubscribers.RobotMsg) : nat :=
  length (List.filter (fun m => match m with
                                | Pysubscribers.Stitch _ => true
                                | _ => false
                                end) msgs).

(** ** Extrinsic.load as the specification describes it *)

(** Modelled from the spec: the method [Extrinsic.load] of
    [vision/extrinsic/extrinsic_utils.py], which [cb_extrinsic_params] calls
    and whose source is not among the files embedded here.  Section 4.2 of
    the specification: the load requires the intrinsic model to be populated
    and fails with CalibrationUncalibratedError when it is not; it fails with
    CalibrationFormatError when the file is absent or malformed or its label
    is unknown to the store; on success it replaces the fields of that camera
    and sets every entry of the registry to true; on failure it leaves the
    store as it was.  [files] tells, for a file name, the camera label and
    the calibration that a well-formed file of that name holds. *)
Definition spec_load (files : string -> option (string * Extrinsic.CamData))
    (e : Extrinsic.t) (mtx dist : option pyval) (FILE_NAME : string)
  : Extrinsic.t * outcome unit :=
  match mtx, dist with
  | Some m, Some d =>
      match files FILE_NAME with
      | Some (label, cam) =>
          if bool_decide (label ∈ dom (Extrinsic.cams e)) then
            ({| Extrinsic.cams := <[label := Some cam]> (Extrinsic.cams e);
                Extrinsic.mtx := Some m;
                Extrinsic.dist := Some d;
                Extrinsic.update := (fun _ => true) <$> Extrinsic.update e |},
             Returns tt)
          else (e, Raises (Exception "CalibrationFormatError"))
      | None => (e, Raises (Exception "CalibrationFormatError"))
      end
  | _, _ => (e, Raises (Exception "CalibrationUncalibratedError"))
  end.

(** ** Fixtures *)

(** A file system without the calibration file. *)
Definition missing_file : Extern :=
  {| os_path_join := fun d f => d +:+ "/" +:+ f;
     os_path_isfile := fun _ => false;
     yaml_safe_load := fun _ => Raises (OSError "No such file or directory");
     np_array_reshape := fun _ _ _ => Raises (ValueError "cannot reshape");
     cv2_initUndistortRectifyMap := fun _ _ _ _ => Raises (Exception "cv2") |}.

(** The namespace of [intrinsic_utils] run as a script: the names bound
    under [if __name__ == '__main__'] are added. *)
Definition script_globals : gmap string string :=
  <["FILE_NAME" := "Intrinsic_640_360.yaml"]>
    (<["VIDEO_WIDTH" := "640"]>
       (<["VIDEO_HEIGHT" := "360"]>
          (<["CONF_PATH" := "/configs"]> IntrinsicClass.module_globals))).

(** An instance whose camera matrix and distortion coefficients hold
    values. *)
Definition populated_intrinsic : IntrinsicClass.t :=
  IntrinsicClass.set_distortion_coefficients (Some (PYaml (YInt 0)))
    (IntrinsicClass.set_mtx (Some (PYaml (YInt 1)))
       (IntrinsicClass.init "Intrinsic_640_360.yaml" "/configs")).


(** Image operations that leave images as they are. *)
Definition fixture_imaging : Pysubscribers.Imaging :=
  {| Pysubscribers.cv2_undistort := fun im _ _ => Returns im;
     Pysubscribers.np_zeros := fun rows cols => {| shape := (rows, cols); drawn := [] |};
     Pysubscribers.cv2_warpPerspective := fun im _ _ => Returns im;
     Pysubscribers.cv2_imshow := fun _ _ => Returns tt |}.


(** A file system in which the calibration file exists and opening and
    parsing it has the outcome [doc]. *)
Definition present_file (doc : outcome yaml)
    (reshape : yaml -> yaml -> yaml -> outcome ndarray)
    (undistort : option pyval -> option pyval -> pyval -> pyval ->
                 outcome (pyval * pyval)) : Extern :=
  {| os_path_join := fun d f => d +:+ "/" +:+ f;
     os_path_isfile := fun _ => true;
     yaml_safe_load := fun _ => doc;
     np_array_reshape := reshape;
     cv2_initUndistortRectifyMap := undistort |}.

(** Signed distance to the axis-parallel rectangle whose contour is given
    by two opposite corners: non-negative inside and on the border,
    negative outside. *)
Definition rect_signed_distance (contour : list Point) (pt : Point) : Q :=
  match contour with
  | [(x0, y0); (x1, y1)] =>
      Qmin (Qmin (pt.1 - x0) (x1 - pt.1)) (Qmin (pt.2 - y0) (y1 - pt.2))
  | _ => (-1)%Q
  end.

(** An identity camera (the homography and the lens leave points where
    they are) over rectangular operating areas, with a given [load]. *)
Definition fixture_vision
    (load : Extrinsic.t -> option pyval -> option pyval -> string ->
            Extrinsic.t * outcome unit) : Vision :=
  {| get_projection_point_src := fun c _ => (c.1.1, c.1.2);
     get_distor_point := fun pt _ _ => pt;
     pointPolygonTest := rect_signed_distance;
     extrinsic_load := load |}.

(** The reload of the specification over a disk on which every
    calibration file is well formed and holds [cam] for camera "C". *)
Definition reload_with (cam : Extrinsic.CamData)
  : Extrinsic.t -> option pyval -> option pyval -> string ->
    Extrinsic.t * outcome unit :=
  spec_load (fun _ => Some ("C", cam)).

(** A 640x360 camera whose operating area is the rectangle
    [100..540] x [150..360]. *)
Definition fixture_cam : Extrinsic.CamData :=
  {| Extrinsic.image_size := (640, 360);
     Extrinsic.waypoint_area := [(100, 150); (540, 360)]%Q;
     Extrinsic.undistord_cnt := [(100, 150); (540, 360)]%Q;
     Extrinsic.view_coord := (320, 400);
     Extrinsic.ppmy := 40%Q;
     Extrinsic.M_inv := [[1; 0; 0]; [0; 1; 0]; [0; 0; 1]]%Q;
     Extrinsic.unwarped_size := (640, 360) |}.

Import Pysubscribers.

(** A consumer turning with curvature 1 in front of [fixture_cam]. *)
Definition turning_consumer : WaypointSuscriber :=
  set_coefficients fixture_cam
    {| cfg := default_config; cam_label := "C";
       x_norm := None; y_norm := None; x_img := None; y_img := None;
       incnt := false; y_limit := Some 200;
       AR := 0; BR := 0; CR := 0; AL := 0; BL := 0; CL := 0;
       _proj_m := None; _cnt_line := None;
       curvature := 1; distord_lines := true |}.

(** Six retained points of a straight left edge, the distances of the
    first five from the vehicle, and an empty 640x360 frame. *)
Definition six_points : list Point :=
  [(306, 360); (306, 359); (306, 357); (306, 354); (306, 350); (306, 345)]%Q.
Definition five_distances : option (list Q) :=
  Some [0.5; 1.2; 2.0; 4.0; 6.0]%Q.
Definition blank_frame : Frame := {| shape := (360, 640); drawn := [] |}.

(** The node right after start-up with no calibration on disk: camera "C"
    is known and uncalibrated, the waypoint consumer has registered. *)
Definition fresh_world : World :=
  (WaypointSuscriber_init default_config
     {| extrinsic := {| Extrinsic.cams := {[ "C" := None ]};
                        Extrinsic.mtx := None; Extrinsic.dist := None;
                        Extrinsic.update := ∅ |};
        intrinsic := IntrinsicClass.init "Intrinsic_640_360.yaml" "/configs";
        subscriber := {| _VIDEO_WIDTH := 640; _VIDEO_HEIGHT := 360 |};
        waypoint := {| cfg := default_config; cam_label := "C";
                       x_norm := None; y_norm := None;
                       x_img := None; y_img := None;
                       incnt := false; y_limit := None;
                       AR := 0; BR := 0; CR := 0; AL := 0; BL := 0; CL := 0;
                       _proj_m := None; _cnt_line := None;
                       curvature := 0; distord_lines := true |};
        load_calls := []; log := [] |}).1.

(** The node with camera "C" calibrated and the consumer's flag cleared by
    an earlier [draw]. *)
Definition calibrated_world : World :=
  set_extrinsic
    {| Extrinsic.cams := {[ "C" := Some fixture_cam ]};
       Extrinsic.mtx := Some (PYaml (YInt 1));
       Extrinsic.dist := Some (PYaml (YInt 0));
       Extrinsic.update := {[ "WaypointSuscriber" := false ]} |}
    fresh_world.

(** The calibrated node right after a reload notice reached the consumer:
    its flag is raised. *)
Definition flagged_world : World :=
  (update_setitem "WaypointSuscriber" true calibrated_world).1.

(** The calibrated node once the intrinsic model holds a camera matrix and
    distortion coefficients; the consumer's flag is down. *)
Definition ready_world : World :=
  {| extrinsic := extrinsic calibrated_world;
     intrinsic := populated_intrinsic;
     subscriber := subscriber calibrated_world;
     waypoint := waypoint calibrated_world;
     load_calls := load_calls calibrated_world;
     log := log calibrated_world |}.

(** A disk holding one calibration file, that of camera "C" at 640x360. *)
Definition fixture_files (name : string) : option (string * Extrinsic.CamData) :=
  if bool_decide (name = "Extrinsic_640_360_C.yaml")
  then Some ("C", fixture_cam) else None.

(** A consumer with the default configuration and the given curvature. *)
Definition consumer_turning (k : Q) : WaypointSuscriber :=
  {| cfg := default_config; cam_label := "C";
     x_norm := None; y_norm := None; x_img := None; y_img := None;
     incnt := false; y_limit := None;
     AR := 0; BR := 0; CR := 0; AL := 0; BL := 0; CL := 0;
     _proj_m := None; _cnt_line := None;
     curvature := k; distord_lines := true |}.

(** * Properties *)

(** ** The monad *)

Lemma bind_lift_returns {S A B} (a : A) (k : A -> M S B) (s : S) :
  bind (lift (Returns a)) k s = k a s.
Proof. reflexivity. Qed.

Lemma bind_lift_raises {S A B} (e : exn) (k : A -> M S B) (s : S) :
  bind (lift (Raises e)) k s = (s, Raise e).
Proof. reflexivity. Qed.

Lemma lift_not_out_of_fuel {S A} (r : outcome A) (s : S) :
  (lift r s).2 <> OutOfFuel.
Proof. destruct r; discriminate. Qed.

(** ** IntrinsicClass.load *)

Module IntrinsicFacts.
Import IntrinsicClass.

Section Load.
Context `{Extern}.
Variable g : gmap string string.

(** Case analysis on the expression evaluated next in a monadic block. *)
Ltac next_outcome :=
  match goal with
  | |- context [of_outcome ?r] =>
      lazymatch r with
      | Returns _ => fail
      | Raises _ => fail
      | _ => destruct r; simpl
      end
  end.

(** One key of the loop raises or returns. *)
Lemma convert_key_terminates key data s :
  (convert_key g data key s).2 <> OutOfFuel.
Proof.
  unfold convert_key, bind, lift, raise, printlog, modify.
  destruct (doc_contains key data) as [present|e]; simpl; [|discriminate].
  destruct present; simpl; repeat (next_outcome; try discriminate).
Qed.

(** The loop over the four matrix keys raises or returns: it cannot run
    out of iterations. *)
Lemma convert_keys_terminates keys data s :
  (convert_keys g data keys s).2 <> OutOfFuel.
Proof.
  revert data s; induction keys as [|key rest IH]; intros data s; simpl.
  - discriminate.
  - unfold bind at 1.
    pose proof (convert_key_terminates key data s) as T.
    destruct (convert_key g data key s) as [s1 [d| e| ]]; simpl in *.
    + apply IH.
    + discriminate.
    + congruence.
Qed.

(** Once the file is open, the [try] block always ends in an exception:
    at the latest when it reads the name [cv2] or the attribute
    [_VIDEO_WIDTH]. *)
Lemma load_file_raises abs_path s :
  exists s' e, load_file g abs_path s = (s', Raise e).
Proof.
  unfold load_file. generalize matrix_keys; intros keys.
  unfold bind at 1. unfold lift at 1.
  destruct (yaml_safe_load abs_path) as [doc|e]; cbn [of_outcome]; [|eauto].
  unfold bind at 1.
  pose proof (convert_keys_terminates keys (document_of_yaml doc) s) as T.
  destruct (convert_keys g (document_of_yaml doc) keys s)
    as [s1 [data| e| ]]; simpl in T; [|eauto|congruence].
  unfold bind, lift, set_self, modify, get, missing_attr; simpl.
  repeat (next_outcome; [|eauto]).
  eauto.
Qed.

(** A missing file: one ERROR entry, normal return, instance untouched. *)
Lemma load_missing_file s :
  os_path_isfile (os_path_join (file_path (self s)) (file_name (self s))) = false ->
  load g s =
    ({| self := self s;
        log := log s ++ [{| log_type := "ERROR";
                            log_msg := "No instrinsic configuration file "
                                       +:+ file_name (self s) |}] |}, Ok tt).
Proof.
  intros E. unfold load, try_except, bind, get. simpl. rewrite E. reflexivity.
Qed.

(** The [except] block resets every field, then needs the global
    [FILE_NAME] for its message. *)
Lemma load_handler_outcome e s :
  exists s',
    load_handler g e s =
      (s', match g !! "FILE_NAME" with
           | Some _ => Ok tt
           | None => Raise (NameError "FILE_NAME")
           end) /\
    all_absent (self s').
Proof.
  unfold load_handler, bind, set_self, modify, lift, global, printlog, reset.
  simpl. destruct (g !! "FILE_NAME"); simpl;
    (eexists; split; [reflexivity|]); unfold all_absent; simpl; repeat split.
Qed.

(** An existing file: the call ends in the [except] block. *)
Lemma load_present_file s :
  os_path_isfile (os_path_join (file_path (self s)) (file_name (self s))) = true ->
  exists s',
    load g s =
      (s', match g !! "FILE_NAME" with
           | Some _ => Ok tt
           | None => Raise (NameError "FILE_NAME")
           end) /\
    all_absent (self s').
Proof.
  intros E. unfold load, try_except, bind at 1, get. cbn beta iota.
  rewrite E.
  destruct (load_file_raises
              (os_path_join (file_path (self s)) (file_name (self s))) s)
    as (s1 & e & ->).
  apply load_handler_outcome.
Qed.

End Load.

(** C3.  With [intrinsic_utils] imported as a module, a freshly constructed
    [IntrinsicClass] and a calibration file that exists: whatever the file
    contains and whatever numpy and cv2 do, [load] ends by raising
    [NameError] for [FILE_NAME] out of its [except] block, after having
    reset every field to [None]. *)
Theorem load_propagates_NameError :
  forall doc reshape undistort FILE_NAME FILE_PATH,
    let s := {| self := init FILE_NAME FILE_PATH; log := [] |} in
    exists s',
      @load (present_file doc reshape undistort) module_globals s
        = (s', Raise (NameError "FILE_NAME")) /\
      all_absent (self s').
Proof.
  intros doc reshape undistort fn fp s.
  destruct (@load_present_file (present_file doc reshape undistort)
              module_globals s eq_refl) as (s' & E & A).
  exists s'. split; [exact E|exact A].
Qed.

End IntrinsicFacts.

(** ** ExtrinsicSubscriber.cb_extrinsic_params *)

Module SubscriberFacts.

Section Handler.
Context `{Vision}.

(** The flag loop leaves no trace in the state: however [self.update] is
    resolved, the [try] block ends in the state that [Extrinsic.load] left. *)
Lemma body_after_load resolve label w e' :
  label ∈ dom (Extrinsic.cams (extrinsic w)) ->
  extrinsic_load (extrinsic w) (IntrinsicClass.mtx (intrinsic w))
                 (IntrinsicClass.distortion_coefficients (intrinsic w))
                 (extrinsic_file_name (subscriber w) label) = (e', Returns tt) ->
  (cb_extrinsic_params_body resolve label w).1 =
    set_extrinsic e' (add_load_call (extrinsic_file_name (subscriber w) label) w).
Proof.
  intros Hin Hload.
  unfold cb_extrinsic_params_body, bind at 1, get.
  rewrite bool_decide_eq_true_2 by exact Hin.
  unfold bind at 1, call_load. rewrite Hload. cbn [of_outcome].
  unfold bind at 1, get. unfold bind, lift.
  destruct (resolve _); reflexivity.
Qed.

(** The registry after the handler is the registry that [Extrinsic.load]
    left, however [self.update] is resolved. *)
Lemma handler_keeps_registry resolve label w e' :
  label ∈ dom (Extrinsic.cams (extrinsic w)) ->
  extrinsic_load (extrinsic w) (IntrinsicClass.mtx (intrinsic w))
                 (IntrinsicClass.distortion_coefficients (intrinsic w))
                 (extrinsic_file_name (subscriber w) label) = (e', Returns tt) ->
  extrinsic (cb_extrinsic_params_with resolve label w).1 = e'.
Proof.
  intros Hin Hload.
  pose proof (body_after_load resolve label w e' Hin Hload) as B.
  unfold cb_extrinsic_params_with, bind at 1, try_except, bind at 1.
  destruct (cb_extrinsic_params_body resolve label w) as [w1 [[]| e| ]];
    simpl in B; subst w1; reflexivity.
Qed.

(** A known label whose reload succeeds: the handler reaches [self.update],
    which raises, logs an ERROR and returns [False]. *)
Lemma known_label_reload label w e' :
  label ∈ dom (Extrinsic.cams (extrinsic w)) ->
  extrinsic_load (extrinsic w) (IntrinsicClass.mtx (intrinsic w))
                 (IntrinsicClass.distortion_coefficients (intrinsic w))
                 (extrinsic_file_name (subscriber w) label) = (e', Returns tt) ->
  cb_extrinsic_params label w =
    (add_log {| log_type := "ERROR";
                log_msg := "Error getting extrinsic calibrationfrom topic, "
                           +:+ exn_str (AttributeError "ExtrinsicSubscriber" "update") |}
       (set_extrinsic e'
          (add_load_call (extrinsic_file_name (subscriber w) label) w)),
     Ok (Some false)).
Proof.
  intros Hin Hload.
  unfold cb_extrinsic_params, cb_extrinsic_params_with, bind at 1, try_except,
    bind at 1, cb_extrinsic_params_body, bind at 1, get.
  rewrite bool_decide_eq_true_2 by exact Hin.
  unfold bind at 1, call_load. rewrite Hload. reflexivity.
Qed.

(** C4 (amended).  A calibration update for a label that is not a key of
    the camera store triggers no load and changes no object; the handler's
    only trace is its closing INFO entry, and it returns [None]. *)
Theorem unknown_label_ignored label w :
  label ∉ dom (Extrinsic.cams (extrinsic w)) ->
  cb_extrinsic_params label w =
    (add_log {| log_type := "INFO";
                log_msg := "Extrinsic parameters for CAM" +:+ label
                           +:+ " updated" |} w,
     Ok None).
Proof.
  intros Hnot.
  unfold cb_extrinsic_params, cb_extrinsic_params_with, bind at 1, try_except,
    bind at 1, cb_extrinsic_params_body, bind at 1, get.
  rewrite bool_decide_eq_false_2 by exact Hnot. reflexivity.
Qed.

(** A successful load of the specification leaves every flag raised and
    keeps the names of the registry. *)
Lemma spec_load_raises_flags files e mtx dist FILE_NAME e' :
  spec_load files e mtx dist FILE_NAME = (e', Returns tt) ->
  Extrinsic.update e' = (fun _ => true) <$> Extrinsic.update e.
Proof.
  unfold spec_load. intros E.
  destruct mtx as [m|], dist as [d|]; try discriminate E.
  destruct (files FILE_NAME) as [[label cam]|]; [|discriminate E].
  destruct (bool_decide _); [|discriminate E].
  injection E as <-. reflexivity.
Qed.

(** C1.  [Extrinsic.load] being as the specification describes it: for a
    label of the camera store whose reload succeeds, every entry of the
    registry [update] is true once the handler has returned, whatever the
    entries held before; the names registered (among them the one of the
    waypoint consumer) are those registered before.  The flags are raised by
    the load: the handler's own loop over [self.update] writes nothing, so the
    registry after the handler is the one that the load left. *)
Theorem reload_raises_every_flag files label w :
  (forall e mtx dist FILE_NAME,
     extrinsic_load e mtx dist FILE_NAME = spec_load files e mtx dist FILE_NAME) ->
  label ∈ dom (Extrinsic.cams (extrinsic w)) ->
  (extrinsic_load (extrinsic w) (IntrinsicClass.mtx (intrinsic w))
                  (IntrinsicClass.distortion_coefficients (intrinsic w))
                  (extrinsic_file_name (subscriber w) label)).2 = Returns tt ->
  let w' := (cb_extrinsic_params label w).1 in
  (forall name flag,
     Extrinsic.update (extrinsic w) !! name = Some flag ->
     Extrinsic.update (extrinsic w') !! name = Some true) /\
  map_Forall (fun _ flag => flag = true) (Extrinsic.update (extrinsic w')) /\
  dom (Extrinsic.update (extrinsic w')) = dom (Extrinsic.update (extrinsic w)).
Proof.
  intros Hspec Hin Hok w'.
  destruct (extrinsic_load (extrinsic w) (IntrinsicClass.mtx (intrinsic w))
              (IntrinsicClass.distortion_coefficients (intrinsic w))
              (extrinsic_file_name (subscriber w) label)) as [e' r] eqn:E.
  simpl in Hok. subst r.
  assert (K : extrinsic w' = e').
  { apply (handler_keeps_registry self_update label w e' Hin E). }
  rewrite Hspec in E. apply spec_load_raises_flags in E.
  rewrite K, E. split; [|split].
  - intros name flag L. rewrite lookup_fmap, L. reflexivity.
  - intros name flag. rewrite lookup_fmap.
    destruct (Extrinsic.update (extrinsic w) !! name); simpl; congruence.
  - apply dom_fmap_L.
Qed.

End Handler.

(** C4, witness: label "X" on a store that knows only "C". *)
Lemma unknown_label_ignored_witness :
  ("X" ∉ dom (Extrinsic.cams (extrinsic calibrated_world))) /\
  @cb_extrinsic_params (fixture_vision (reload_with fixture_cam)) "X"
      calibrated_world =
    (add_log {| log_type := "INFO";
                log_msg := "Extrinsic parameters for CAMX updated" |}
             calibrated_world,
     Ok None).
Proof.
  assert (N : "X" ∉ dom (Extrinsic.cams (extrinsic calibrated_world))).
  { apply not_elem_of_dom. vm_compute. reflexivity. }
  split; [exact N|].
  apply (@unknown_label_ignored (fixture_vision (reload_with fixture_cam))
           "X" calibrated_world N).
Defined.

(** C4, counterexample: for label "X" the handler logs no warning. *)
Lemma unknown_label_logs_no_warning :
  ~ Exists is_warning
      (log (@cb_extrinsic_params (fixture_vision (reload_with fixture_cam))
              "X" calibrated_world).1).
Proof.
  vm_compute. intros E. inversion E as [? ? [W|W]|? ? E']; subst.
  - discriminate W.
  - discriminate W.
  - inversion E'.
Qed.

(** C1, witness: camera "C" with its flag down, the intrinsic model
    populated and the calibration file on disk: after the handler the flag
    registered by the waypoint consumer is raised. *)
Lemma reload_raises_every_flag_witness :
  let V := fixture_vision (spec_load fixture_files) in
  ("C" ∈ dom (Extrinsic.cams (extrinsic ready_world))) /\
  (@extrinsic_load V (extrinsic ready_world)
     (IntrinsicClass.mtx (intrinsic ready_world))
     (IntrinsicClass.distortion_coefficients (intrinsic ready_world))
     (extrinsic_file_name (subscriber ready_world) "C")).2 = Returns tt /\
  Extrinsic.update (extrinsic ready_world) !! "WaypointSuscriber" = Some false /\
  Extrinsic.update (extrinsic (@cb_extrinsic_params V "C" ready_world).1)
    !! "WaypointSuscriber" = Some true.
Proof.
  cbn zeta.
  assert (I : "C" ∈ dom (Extrinsic.cams (extrinsic ready_world))).
  { apply elem_of_dom. vm_compute. eauto. }
  assert (L : (@extrinsic_load (fixture_vision (spec_load fixture_files))
                 (extrinsic ready_world)
                 (IntrinsicClass.mtx (intrinsic ready_world))
                 (IntrinsicClass.distortion_coefficients (intrinsic ready_world))
                 (extrinsic_file_name (subscriber ready_world) "C")).2
              = Returns tt) by (vm_compute; reflexivity).
  assert (F : Extrinsic.update (extrinsic ready_world) !! "WaypointSuscriber"
              = Some false) by (vm_compute; reflexivity).
  split; [exact I|]. split; [exact L|]. split; [exact F|].
  destruct (@reload_raises_every_flag (fixture_vision (spec_load fixture_files))
              fixture_files "C" ready_world
              (fun _ _ _ _ => eq_refl) I L) as (R & _).
  exact (R "WaypointSuscriber" false F).
Defined.

End SubscriberFacts.

(** ** WaypointSuscriber.cb_screen_point *)

Module ClickFacts.

Section Click.
Context `{Vision}.

(** C2 (amended).  A click delivered while the camera's entry in the store
    is [None]: the handler logs the error "camera ... no calibrated"; the
    normalised coordinates of the click are stored in [x_norm], [y_norm];
    nothing else changes, in particular the pixel coordinates [x_img],
    [y_img] keep their previous values. *)
Theorem click_uncalibrated x y w :
  Extrinsic.cams (extrinsic w) !! cam_label (waypoint w) = Some None ->
  cb_screen_point x y w =
    (add_log {| log_type := "ERROR";
                log_msg := "error procesing waypoint camera "
                           +:+ cam_label (waypoint w) +:+ " no calibrated" |}
       (set_waypoint (set_y_norm (Some y) (set_x_norm (Some x) (waypoint w))) w),
     Ok tt).
Proof.
  intros E.
  unfold cb_screen_point, try_except, cb_screen_point_body.
  unfold bind at 1, update_waypoint at 1, modify.
  unfold bind at 1, update_waypoint at 1, modify.
  unfold bind at 1, get. unfold bind at 1, lift, Extrinsic.cams_getitem.
  simpl. rewrite E. reflexivity.
Qed.

End Click.

(** C2, witness: a click at (0.5, 0.5) on the freshly started node. *)
Lemma click_uncalibrated_witness :
  Extrinsic.cams (extrinsic fresh_world) !! cam_label (waypoint fresh_world)
    = Some None /\
  @cb_screen_point (fixture_vision (reload_with fixture_cam)) 0.5%Q 0.5%Q
      fresh_world =
    (add_log {| log_type := "ERROR";
                log_msg := "error procesing waypoint camera C no calibrated" |}
       (set_waypoint
          (set_y_norm (Some 0.5%Q) (set_x_norm (Some 0.5%Q) (waypoint fresh_world)))
          fresh_world),
     Ok tt).
Proof.
  split; [vm_compute; reflexivity|].
  apply (@click_uncalibrated (fixture_vision (reload_with fixture_cam))
           0.5%Q 0.5%Q fresh_world).
  vm_compute; reflexivity.
Defined.

(** C2, counterexample: after a click at (0.5, 0.5) before any extrinsic
    load, the click coordinates are retained. *)
Lemma click_uncalibrated_is_retained :
  let w' := (@cb_screen_point (fixture_vision (reload_with fixture_cam))
               0.5%Q 0.5%Q fresh_world).1 in
  x_norm (waypoint fresh_world) = None /\
  y_norm (waypoint fresh_world) = None /\
  ~ (x_norm (waypoint w') = None /\ y_norm (waypoint w') = None).
Proof.
  vm_compute. split; [reflexivity|]. split; [reflexivity|].
  intros [E _]. discriminate E.
Qed.

End ClickFacts.

(** ** Curve coefficients *)

Module CoefficientFacts.

Local Open Scope Q_scope.

Lemma gt_true_iff a b : gt a b = true <-> b < a.
Proof.
  unfold gt. rewrite negb_true_iff, <- not_true_iff_false, Qle_bool_iff.
  split; [apply Qnot_le_lt | apply Qlt_not_le].
Qed.

Lemma gt_false_iff a b : gt a b = false <-> a <= b.
Proof. unfold gt. rewrite negb_false_iff. apply Qle_bool_iff. Qed.

Lemma coef_AR_positive c curvature :
  0 < curvature -> coef_AR c curvature = (0.01 + _CURV_OFFSET c) * curvature.
Proof.
  intros P. unfold coef_AR.
  rewrite (proj2 (gt_true_iff curvature 0) P). reflexivity.
Qed.

Lemma coef_AR_not_positive c curvature :
  curvature <= 0 -> coef_AR c curvature = (0.01 - _CURV_OFFSET c) * curvature.
Proof.
  intros P. unfold coef_AR.
  rewrite (proj2 (gt_false_iff curvature 0) P). reflexivity.
Qed.

(** What [draw] stores in the coefficient attributes. *)
Lemma set_coefficients_fields cam p :
  let p' := set_coefficients cam p in
  AR p' = coef_AR (cfg p) (curvature p) /\
  AL p' = coef_AL (curvature p) /\
  BL p' = 0 /\ BR p' = BR p /\
  CR p' = inject_Z ((Extrinsic.view_coord cam).1
                    + ct_dist (cfg p) (Extrinsic.ppmy cam)) /\
  CL p' = inject_Z ((Extrinsic.view_coord cam).1
                    - ct_dist (cfg p) (Extrinsic.ppmy cam)).
Proof. repeat split. Qed.

(** C6 (amended).  For a consumer with a positive curvature and one with
    a negative curvature under the same configuration, [draw] stores in [AR]
    [(0.01 + offset) * curvature] for the first and
    [(0.01 - offset) * curvature] for the second, and in [AL]
    [0.01 * curvature] for both.  The two values of [AR] differ by more than
    twice the magnitude of the offset when both curvatures have magnitude at
    least 1 and the offset has magnitude at most 0.005. *)
Theorem AR_asymmetric_AL_symmetric cam pp pn :
  cfg pp = cfg pn ->
  0 < curvature pp -> curvature pn < 0 ->
  let offset := _CURV_OFFSET (cfg pp) in
  let pp' := set_coefficients cam pp in
  let pn' := set_coefficients cam pn in
  AR pp' = (0.01 + offset) * curvature pp /\
  AR pn' = (0.01 - offset) * curvature pn /\
  AL pp' = 0.01 * curvature pp /\ AL pn' = 0.01 * curvature pn /\
  (1 <= curvature pp -> curvature pn <= -1 -> Qabs offset <= 0.005 ->
   2 * Qabs offset < Qabs (AR pp' - AR pn')).
Proof.
  intros Hcfg P N offset pp' pn'.
  assert (Ep : AR pp' = (0.01 + offset) * curvature pp).
  { change (coef_AR (cfg pp) (curvature pp) = (0.01 + offset) * curvature pp).
    apply coef_AR_positive, P. }
  assert (En : AR pn' = (0.01 - offset) * curvature pn).
  { change (coef_AR (cfg pn) (curvature pn) = (0.01 - offset) * curvature pn).
    unfold offset. rewrite Hcfg.
    apply coef_AR_not_positive, Qlt_le_weak, N. }
  split; [exact Ep|]. split; [exact En|].
  split; [reflexivity|]. split; [reflexivity|].
  intros P1 N1 Ho. rewrite Ep, En.
  apply Qabs_Qle_condition in Ho. destruct Ho as [Ho1 Ho2].
  assert (A : 2 * Qabs offset <= 0.01).
  { apply Qabs_case; intros _; lra. }
  assert (B : 0 <= (0.01 + offset) * (curvature pp - 1)).
  { apply Qmult_le_0_compat; lra. }
  assert (C : 0 <= (0.01 - offset) * (- curvature pn - 1)).
  { apply Qmult_le_0_compat; lra. }
  eapply Qlt_le_trans; [|apply Qle_Qabs].
  eapply Qle_lt_trans; [exact A|].
  ring_simplify in B. ring_simplify in C. ring_simplify. lra.
Qed.

(** C6, witness: curvatures 1 and -1 with the default offset 0.003. *)
Lemma AR_asymmetric_AL_symmetric_witness :
  cfg (consumer_turning 1) = cfg (consumer_turning (-1)) /\
  0 < curvature (consumer_turning 1) /\
  curvature (consumer_turning (-1)) < 0 /\
  1 <= curvature (consumer_turning 1) /\
  curvature (consumer_turning (-1)) <= -1 /\
  Qabs (_CURV_OFFSET (cfg (consumer_turning 1))) <= 0.005 /\
  AR (set_coefficients fixture_cam (consumer_turning 1)) = (0.01 + 0.003) * 1 /\
  AR (set_coefficients fixture_cam (consumer_turning (-1))) = (0.01 - 0.003) * (-1) /\
  2 * Qabs (_CURV_OFFSET (cfg (consumer_turning 1)))
  < Qabs (AR (set_coefficients fixture_cam (consumer_turning 1))
          - AR (set_coefficients fixture_cam (consumer_turning (-1)))).
Proof.
  assert (Hc : cfg (consumer_turning 1) = cfg (consumer_turning (-1)))
    by reflexivity.
  assert (P : 0 < curvature (consumer_turning 1)) by reflexivity.
  assert (N : curvature (consumer_turning (-1)) < 0) by reflexivity.
  assert (P1 : 1 <= curvature (consumer_turning 1))
    by (vm_compute; discriminate).
  assert (N1 : curvature (consumer_turning (-1)) <= -1)
    by (vm_compute; discriminate).
  assert (Ho : Qabs (_CURV_OFFSET (cfg (consumer_turning 1))) <= 0.005)
    by (vm_compute; discriminate).
  destruct (AR_asymmetric_AL_symmetric fixture_cam (consumer_turning 1)
              (consumer_turning (-1)) Hc P N) as (Ep & En & _ & _ & D).
  split; [exact Hc|]. split; [exact P|]. split; [exact N|].
  split; [exact P1|]. split; [exact N1|]. split; [exact Ho|].
  split; [exact Ep|]. split; [exact En|].
  exact (D P1 N1 Ho).
Defined.

(** C6, counterexample: with the default offset 0.003 and the curvatures
    0.1 and -0.1, the two values of [AR] are 0.002 apart, which is not more
    than twice the offset. *)
Lemma AR_difference_not_above_twice_offset :
  0 < 0.1 /\ -0.1 < 0 /\
  ~ (2 * Qabs (_CURV_OFFSET default_config)
     < Qabs (coef_AR default_config 0.1 - coef_AR default_config (-0.1))).
Proof.
  split; [reflexivity|]. split; [reflexivity|].
  apply Qle_not_lt. vm_compute. discriminate.
Qed.

(** C7.  With a curvature equal to 0, [draw] sets [AL] and [AR] to 0, so
    that both edge curves are straight lines: the left one is the constant
    [CL], the right one is [BR * idx_y + CR]. *)
Theorem zero_curvature_straight_edges cam p :
  curvature p == 0 ->
  let p' := set_coefficients cam p in
  AL p' == 0 /\ AR p' == 0 /\
  (forall idx_y, curve (AL p') (BL p') (CL p') idx_y == CL p') /\
  (forall idx_y, curve (AR p') (BR p') (CR p') idx_y
                 == BR p' * inject_Z idx_y + CR p').
Proof.
  intros Z p'.
  assert (L : AL p' == 0).
  { change (0.01 * curvature p == 0). rewrite Z. ring. }
  assert (R : AR p' == 0).
  { change (coef_AR (cfg p) (curvature p) == 0).
    rewrite coef_AR_not_positive by (rewrite Z; apply Qle_refl).
    rewrite Z. ring. }
  repeat split; try assumption.
  - intros idx_y. unfold curve. rewrite L. change (BL p') with 0. ring.
  - intros idx_y. unfold curve. rewrite R. ring.
Qed.

(** C7, witness: the freshly initialised consumer, whose curvature is 0. *)
Lemma zero_curvature_straight_edges_witness :
  curvature (waypoint fresh_world) == 0 /\
  AL (set_coefficients fixture_cam (waypoint fresh_world)) == 0 /\
  AR (set_coefficients fixture_cam (waypoint fresh_world)) == 0.
Proof.
  assert (Z : curvature (waypoint fresh_world) == 0) by reflexivity.
  split; [exact Z|].
  destruct (zero_curvature_straight_edges fixture_cam (waypoint fresh_world) Z)
    as (L & R & _).
  split; [exact L|exact R].
Defined.

End CoefficientFacts.

(** ** Sampling of the edge curves *)

Module SamplingFacts.

Local Open Scope list_scope.

Lemma retain_while_take {A} (keep : A -> bool) (l : list A) :
  retain_while keep l = take (length (retain_while keep l)) l.
Proof.
  induction l as [|x rest IH]; simpl; [reflexivity|].
  destruct (keep x); simpl; [f_equal; exact IH | reflexivity].
Qed.

Lemma retain_while_all {A} (keep : A -> bool) (l : list A) :
  Forall (fun x => keep x = true) (retain_while keep l).
Proof.
  induction l as [|x rest IH]; simpl; [constructor|].
  destruct (keep x) eqn:K; [constructor; assumption | constructor].
Qed.

Lemma retain_while_stop {A} (keep : A -> bool) (l : list A) (x : A) :
  l !! length (retain_while keep l) = Some x -> keep x = false.
Proof.
  induction l as [|y rest IH]; simpl; [discriminate|].
  destruct (keep y) eqn:K; simpl; [exact IH | congruence].
Qed.

Lemma retain_while_length {A} (keep : A -> bool) (l : list A) :
  (length (retain_while keep l) <= length l)%nat.
Proof.
  induction l as [|x rest IH]; simpl; [lia|].
  destruct (keep x); simpl; lia.
Qed.

(** Beyond the number of iterations the loop can make, more fuel does not
    lengthen the index sequence. *)
Lemma sample_indices_saturated fuel1 fuel2 limit idx_y increment :
  1 <= increment ->
  (Z.to_nat (idx_y - limit) < fuel1)%nat ->
  (Z.to_nat (idx_y - limit) < fuel2)%nat ->
  sample_indices fuel1 limit idx_y increment
  = sample_indices fuel2 limit idx_y increment.
Proof.
  revert fuel2 idx_y increment.
  induction fuel1 as [|fuel1 IH]; intros fuel2 idx_y increment I F1 F2; [lia|].
  destruct fuel2 as [|fuel2]; [lia|]. simpl.
  destruct (idx_y >? limit) eqn:C; [|reflexivity].
  apply Z.gtb_lt in C. f_equal. apply IH; lia.
Qed.

(** Every sampled index lies above the limit. *)
Lemma sample_indices_above fuel limit idx_y increment :
  Forall (fun i => limit < i) (sample_indices fuel limit idx_y increment).
Proof.
  revert idx_y increment; induction fuel as [|fuel IH]; intros idx_y increment;
    simpl; [constructor|].
  destruct (idx_y >? limit) eqn:C; [|constructor].
  apply Z.gtb_lt in C. constructor; [exact C | apply IH].
Qed.

Section Sampling.
Context `{Vision}.

(** What one side of the loop body does to its flag and its list. *)
Lemma sample_side_step e cam distord A B C idx_y proj :
  sample_side e cam distord A B C idx_y false proj =
    if sample_inside e cam distord A B C idx_y
    then (false, proj ++ [sample_point e cam distord A B C idx_y])
    else (true, proj).
Proof.
  unfold sample_side, sample_inside, sample_point. simpl.
  destruct (project_sample e cam distord A B C idx_y) as [pt in_cnt]; simpl.
  destruct (ge in_cnt 0); reflexivity.
Qed.

Lemma sample_side_out e cam distord A B C idx_y proj :
  sample_side e cam distord A B C idx_y true proj = (true, proj).
Proof. reflexivity. Qed.

Lemma retained_step e cam distord A B C idx_y out proj idxs :
  let '(out', proj') := sample_side e cam distord A B C idx_y out proj in
  proj' ++ retained e cam distord A B C out' idxs
  = proj ++ retained e cam distord A B C out (idx_y :: idxs).
Proof.
  destruct out.
  - rewrite sample_side_out. reflexivity.
  - rewrite sample_side_step. unfold retained. simpl.
    destruct (sample_inside e cam distord A B C idx_y); simpl.
    + rewrite <- app_assoc. reflexivity.
    + reflexivity.
Qed.

(** Loop invariant: with enough fuel the loop returns, and each side has
    appended the points of its prefix of the remaining indices. *)
Lemma sample_loop_retains fuel e cam p limit idx_y increment
      lout rout left_proj right_proj :
  1 <= increment ->
  (Z.to_nat (idx_y - limit) < fuel)%nat ->
  sample_loop fuel e cam p limit idx_y increment lout rout left_proj right_proj
  = let idxs := sample_indices fuel limit idx_y increment in
    Ok (left_proj ++ retained e cam (distord_lines p) (AL p) (BL p) (CL p) lout idxs,
        right_proj ++ retained e cam (distord_lines p) (AR p) (BR p) (CR p) rout idxs).
Proof.
  revert idx_y increment lout rout left_proj right_proj.
  induction fuel as [|fuel IH];
    intros idx_y increment lout rout left_proj right_proj I F; [lia|].
  simpl. destruct (idx_y >? limit) eqn:C.
  - apply Z.gtb_lt in C.
    pose proof (retained_step e cam (distord_lines p) (AL p) (BL p) (CL p)
                  idx_y lout left_proj
                  (sample_indices fuel limit (idx_y - increment) (increment + 1)))
      as L.
    pose proof (retained_step e cam (distord_lines p) (AR p) (BR p) (CR p)
                  idx_y rout right_proj
                  (sample_indices fuel limit (idx_y - increment) (increment + 1)))
      as R.
    destruct (sample_side e cam (distord_lines p) (AL p) (BL p) (CL p)
                idx_y lout left_proj) as [lout' left'].
    destruct (sample_side e cam (distord_lines p) (AR p) (BR p) (CR p)
                idx_y rout right_proj) as [rout' right'].
    rewrite IH by lia. simpl. rewrite L, R. reflexivity.
  - unfold retained. destruct lout, rout; simpl; rewrite ?app_nil_r; reflexivity.
Qed.

(** The sampling block returns the two prefixes. *)
Lemma sample_curves_retained e cam p yl :
  sample_curves e cam p yl =
    Ok (retained e cam (distord_lines p) (AL p) (BL p) (CL p) false
                 (sampled_indices cam yl),
        retained e cam (distord_lines p) (AR p) (BR p) (CR p) false
                 (sampled_indices cam yl)).
Proof.
  unfold sample_curves, sampled_indices.
  rewrite sample_loop_retains by lia. reflexivity.
Qed.

(** One side's list is the image of a prefix of the index sequence, every
    index of that prefix tests non-negative, and the index right after it,
    if there is one, tests negative. *)
Lemma retained_is_prefix e cam distord A B C idxs :
  exists n : nat,
    (n <= length idxs)%nat /\
    retained e cam distord A B C false idxs
      = sample_point e cam distord A B C <$> take n idxs /\
    Forall (fun i => sample_inside e cam distord A B C i = true) (take n idxs) /\
    (forall i, idxs !! n = Some i -> sample_inside e cam distord A B C i = false).
Proof.
  exists (length (retain_while (sample_inside e cam distord A B C) idxs)).
  split; [apply retain_while_length|].
  split; [unfold retained; rewrite <- retain_while_take; reflexivity|].
  split; [rewrite <- retain_while_take; apply retain_while_all|].
  intros i. apply retain_while_stop.
Qed.

End Sampling.

(** C5.  In the sampling block of [draw], each side retains the projected
    points of a prefix of the sampled index sequence: every index of the
    prefix has a non-negative signed distance, the index that follows the
    prefix (if any) has a negative one, and nothing is retained from there
    on.  The two prefixes are determined independently and can have
    different lengths. *)
Theorem sampling_retains_prefix_per_side :
  (forall (V : Vision) e cam p yl,
     exists (nl nr : nat) left_proj right_proj,
       let idxs := sampled_indices cam yl in
       let inside_l := sample_inside e cam (distord_lines p) (AL p) (BL p) (CL p) in
       let inside_r := sample_inside e cam (distord_lines p) (AR p) (BR p) (CR p) in
       sample_curves e cam p yl = Ok (left_proj, right_proj) /\
       left_proj = sample_point e cam (distord_lines p) (AL p) (BL p) (CL p)
                   <$> take nl idxs /\
       right_proj = sample_point e cam (distord_lines p) (AR p) (BR p) (CR p)
                    <$> take nr idxs /\
       Forall (fun i => inside_l i = true) (take nl idxs) /\
       Forall (fun i => inside_r i = true) (take nr idxs) /\
       (forall i, idxs !! nl = Some i -> inside_l i = false) /\
       (forall i, idxs !! nr = Some i -> inside_r i = false)) /\
  (exists (V : Vision) e cam p yl left_proj right_proj,
     @sample_curves V e cam p yl = Ok (left_proj, right_proj) /\
     length left_proj <> length right_proj).
Proof.
  split.
  - intros V e cam p yl.
    destruct (retained_is_prefix e cam (distord_lines p) (AL p) (BL p) (CL p)
                (sampled_indices cam yl)) as (nl & _ & El & Al & Sl).
    destruct (retained_is_prefix e cam (distord_lines p) (AR p) (BR p) (CR p)
                (sampled_indices cam yl)) as (nr & _ & Er & Ar & Sr).
    exists nl, nr. eexists. eexists. cbn zeta.
    split; [apply sample_curves_retained|].
    repeat split; assumption.
  - exists (fixture_vision (reload_with fixture_cam)),
      (extrinsic calibrated_world), fixture_cam, turning_consumer, 200.
    eexists. eexists. split; [vm_compute; reflexivity|].
    vm_compute. discriminate.
Qed.

(** The turning footprint in front of [fixture_cam]: eighteen indices are
    sampled; the right edge leaves the operating area at the fourteenth
    (position 13, index -131) and keeps the thirteen points before it, the
    left edge keeps fifteen. *)
Example turning_footprint_sides :
  let V := fixture_vision (reload_with fixture_cam) in
  let e := extrinsic calibrated_world in
  let p := turning_consumer in
  let idxs := sampled_indices fixture_cam 200 in
  length idxs = 18%nat /\
  idxs !! 13%nat = Some (-131) /\
  @sample_inside V e fixture_cam true (AR p) (BR p) (CR p) (-131) = false /\
  @sample_curves V e fixture_cam p 200
  = Ok (@sample_point V e fixture_cam true (AL p) (BL p) (CL p) <$> take 15 idxs,
        @sample_point V e fixture_cam true (AR p) (BR p) (CR p) <$> take 13 idxs).
Proof. vm_compute. repeat split. Qed.

End SamplingFacts.

(** ** Rendering of the retained points *)

Module RenderFacts.

Local Open Scope list_scope.

Lemma gt_threshold_mono m a b :
  (a <= b)%Q -> gt m b = true -> gt m a = true.
Proof.
  rewrite !CoefficientFacts.gt_true_iff. intros L G.
  eapply Qle_lt_trans; eassumption.
Qed.

(** The band of a distance, with the thresholds it exceeds. *)
Lemma band_cases m :
  (band m = 0 /\ gt m 1.0 = false /\ gt m 1.5 = false /\ gt m 3.0 = false) \/
  (band m = 1 /\ gt m 1.0 = true /\ gt m 1.5 = false /\ gt m 3.0 = false) \/
  (band m = 2 /\ gt m 1.0 = true /\ gt m 1.5 = true /\ gt m 3.0 = false) \/
  (band m = 3 /\ gt m 1.0 = true /\ gt m 1.5 = true /\ gt m 3.0 = true).
Proof.
  assert (M1 : gt m 1.5 = true -> gt m 1.0 = true)
    by (apply gt_threshold_mono; vm_compute; discriminate).
  assert (M2 : gt m 3.0 = true -> gt m 1.5 = true)
    by (apply gt_threshold_mono; vm_compute; discriminate).
  unfold band, _DISTAN_M, len. cbn [removelast List.filter].
  destruct (gt m 1.0) eqn:G1, (gt m 1.5) eqn:G2, (gt m 3.0) eqn:G3;
    cbn [length]; try (specialize (M1 eq_refl)); try (specialize (M2 eq_refl));
    try discriminate; auto 10.
Qed.

Lemma draw_on_nil f : draw_on f [] = f.
Proof. destruct f. unfold draw_on. simpl. rewrite app_nil_r. reflexivity. Qed.

Lemma draw_on_app f a b : draw_on (draw_on f a) b = draw_on f (a ++ b).
Proof. unfold draw_on. simpl. rewrite app_assoc. reflexivity. Qed.

Lemma emit_draw_on cmd f : emit cmd f = (draw_on f [cmd], Ok tt).
Proof. reflexivity. Qed.

(** An index inside the list is found. *)
Lemma index_in_range {A} site (l : list A) i :
  0 <= i < len l -> exists a, index site l i = Returns a /\ l !! Z.to_nat i = Some a.
Proof.
  intros [L U]. unfold index, len in *.
  destruct (i <? 0) eqn:N; [apply Z.ltb_lt in N; lia|].
  rewrite (proj2 (Z.leb_le 0 i) L), (proj2 (Z.ltb_lt _ _) U). simpl.
  destruct (l !! Z.to_nat i) as [a|] eqn:E; [eauto|].
  apply lookup_ge_None in E. lia.
Qed.

Lemma last_threshold : index "self._DISTAN_M" _DISTAN_M (-1) = Returns 5.0%Q.
Proof. reflexivity. Qed.

Lemma ticks_nil c sd pt k : ticks c sd pt k k = [].
Proof. unfold ticks. rewrite Z.sub_diag. reflexivity. Qed.

Lemma ticks_cons c sd pt k k' :
  k < k' -> ticks c sd pt k k' = tick_line c sd pt (k + 1) :: ticks c sd pt (k + 1) k'.
Proof.
  intros L. unfold ticks.
  replace (Z.to_nat (k' - k)) with (S (Z.to_nat (k' - (k + 1)))) by lia.
  rewrite <- cons_seq. rewrite fmap_cons, <- fmap_S_seq, <- list_fmap_compose.
  f_equal; [f_equal; lia|].
  apply list_fmap_ext. intros _ j _. simpl. f_equal. lia.
Qed.

Section Loops.
Variables (c : Config) (sd : Side) (proj : list Point) (pm : option (list Q)).

(** The [while] loop stops where the distance does not exceed the
    threshold of the current colour. *)
Lemma tick_loop_stop fuel idx color_idx thickness_idx f m d :
  proj_m_getitem pm idx = Returns m ->
  index "self._DISTAN_M" _DISTAN_M color_idx = Returns d ->
  gt m d = false ->
  tick_loop (S fuel) c sd proj pm idx color_idx thickness_idx f
  = (f, Ok (color_idx, thickness_idx)).
Proof.
  intros Hm Hd G. simpl. unfold bind, lift. rewrite Hm, Hd. simpl.
  rewrite G. reflexivity.
Qed.

(** One iteration of the [while] loop. *)
Lemma tick_loop_advance fuel idx color_idx thickness_idx f m d pt col :
  proj_m_getitem pm idx = Returns m ->
  index "self._DISTAN_M" _DISTAN_M color_idx = Returns d ->
  gt m d = true ->
  index "proj" proj idx = Returns pt ->
  index "self._COLORS" _COLORS (color_idx + 1) = Returns col ->
  tick_loop (S fuel) c sd proj pm idx color_idx thickness_idx f
  = tick_loop fuel c sd proj pm idx (color_idx + 1)
      (step_thickness thickness_idx)
      (draw_on f [Line pt (tick_end c sd pt) col
                       (_HOZ_THICK c + step_thickness thickness_idx)]).
Proof.
  intros Hm Hd G Hp Hc. simpl. unfold bind at 1, lift at 1. rewrite Hm.
  cbn [of_outcome]. unfold bind at 1, lift at 1. rewrite Hd. cbn [of_outcome].
  rewrite G. unfold bind at 1, lift at 1. rewrite Hp. cbn [of_outcome].
  unfold bind at 1, lift at 1. rewrite Hc. cbn [of_outcome].
  unfold bind at 1. rewrite emit_draw_on. reflexivity.
Qed.

(** The [while] loop, for a distance within the last threshold: the colour
    index ends at the band of the distance unless it was already beyond,
    one tick is drawn per step, and the thickness index stays the
    complement of the colour index. *)
Lemma tick_loop_band fuel idx color_idx f m pt :
  proj_m_getitem pm idx = Returns m ->
  gt m 5.0 = false ->
  index "proj" proj idx = Returns pt ->
  0 <= color_idx <= 3 ->
  (Z.to_nat (4 - color_idx) <= fuel)%nat ->
  let k := Z.max color_idx (band m) in
  tick_loop fuel c sd proj pm idx color_idx (len _COLORS - color_idx) f
  = (draw_on f (ticks c sd pt color_idx k), Ok (k, len _COLORS - k)).
Proof.
  intros Hm G5 Hp. revert color_idx f.
  induction fuel as [|fuel IH]; intros color_idx f R F; [lia|].
  assert (Cs : color_idx = 0 \/ color_idx = 1 \/ color_idx = 2 \/ color_idx = 3)
    by lia.
  cbn zeta.
  destruct Cs as [ -> | [ -> | [ -> | -> ] ] ];
    destruct (band_cases m) as [(E & G1 & G2 & G3) | [(E & G1 & G2 & G3)
                               | [(E & G1 & G2 & G3) | (E & G1 & G2 & G3)]]];
    rewrite E;
    repeat match goal with
           | |- context [Z.max ?a ?b] =>
               let v := eval vm_compute in (Z.max a b) in
               change (Z.max a b) with v
           end;
    first
      [ erewrite tick_loop_stop by (eassumption || reflexivity);
        rewrite ticks_nil, draw_on_nil; reflexivity
      | erewrite tick_loop_advance by (eassumption || reflexivity);
        match goal with
        | |- context [tick_loop _ _ _ _ _ _ ?k (step_thickness ?x) _] =>
            change (step_thickness x) with (len _COLORS - k)
        end;
        rewrite IH by lia; cbn zeta; rewrite E;
        repeat match goal with
               | |- context [Z.max ?a ?b] =>
                   let v := eval vm_compute in (Z.max a b) in
                   change (Z.max a b) with v
               end;
        rewrite draw_on_app;
        match goal with
        | |- _ = (draw_on _ (ticks _ _ _ ?a ?b), _) =>
            rewrite (ticks_cons c sd pt a b) by lia
        end;
        reflexivity ].
Qed.

Lemma color_index k :
  0 <= k <= 3 -> index "self._COLORS" _COLORS k = Returns (color_at k).
Proof.
  intros R.
  assert (Cs : k = 0 \/ k = 1 \/ k = 2 \/ k = 3) by lia.
  destruct Cs as [ -> | [ -> | [ -> | -> ] ] ]; reflexivity.
Qed.

Lemma band_range m : 0 <= band m <= 3.
Proof.
  destruct (band_cases m) as [(E & _) | [(E & _) | [(E & _) | (E & _)]]];
    rewrite E; lia.
Qed.

(** [break]: a distance beyond the last threshold ends the loop with
    nothing drawn for this or any later index. *)
Lemma side_loop_break idx rest color_idx thickness_idx f m :
  proj_m_getitem pm idx = Returns m ->
  gt m 5.0 = true ->
  side_loop c sd proj pm (idx :: rest) color_idx thickness_idx f
  = (f, Ok (color_idx, thickness_idx)).
Proof.
  intros Hm G. simpl. unfold bind at 1, lift at 1. rewrite Hm. cbn [of_outcome].
  unfold bind at 1, lift at 1. rewrite last_threshold. cbn [of_outcome].
  rewrite G. reflexivity.
Qed.

(** An exception raised by [self._proj_m[idx]] leaves the loop. *)
Lemma side_loop_raise idx rest color_idx thickness_idx f e :
  proj_m_getitem pm idx = Raises e ->
  side_loop c sd proj pm (idx :: rest) color_idx thickness_idx f = (f, Raise e).
Proof. intros Hm. simpl. unfold bind at 1, lift at 1. rewrite Hm. reflexivity. Qed.

(** One iteration that draws: ticks up to the band of the distance, then
    the segment. *)
Lemma side_loop_draw idx rest color_idx f m pt1 pt2 :
  proj_m_getitem pm idx = Returns m ->
  gt m 5.0 = false ->
  index "proj" proj idx = Returns pt1 ->
  index "proj" proj (idx + 1) = Returns pt2 ->
  0 <= color_idx <= 3 ->
  let k := Z.max color_idx (band m) in
  side_loop c sd proj pm (idx :: rest) color_idx (len _COLORS - color_idx) f
  = side_loop c sd proj pm rest k (len _COLORS - k)
      (draw_on f (ticks c sd pt1 color_idx k ++ [segment_line c pt1 pt2 k])).
Proof.
  intros Hm G Hp1 Hp2 R k.
  pose proof (band_range m) as B.
  cbn [side_loop]. unfold bind at 1, lift at 1. rewrite Hm. cbn [of_outcome].
  unfold bind at 1, lift at 1. rewrite last_threshold. cbn [of_outcome].
  rewrite G. unfold bind at 1.
  rewrite (tick_loop_band _ idx color_idx f m pt1 Hm G Hp1 R)
    by (change (length _DISTAN_M) with 4%nat; lia).
  fold k. cbn [fst snd].
  unfold bind at 1, lift at 1. rewrite Hp1. cbn [of_outcome].
  unfold bind at 1, lift at 1. rewrite Hp2. cbn [of_outcome].
  unfold bind at 1, lift at 1. rewrite (color_index k) by lia. cbn [of_outcome].
  unfold bind at 1. rewrite emit_draw_on, draw_on_app. reflexivity.
Qed.

Lemma ticks_banded pt k k' :
  0 <= k -> k' <= 3 -> Forall (banded_line c) (ticks c sd pt k k').
Proof.
  intros L U. unfold ticks. apply Forall_fmap, Forall_forall.
  intros j Hj. apply elem_of_seq in Hj. simpl.
  exists pt, (tick_end c sd pt), (k + 1 + Z.of_nat j).
  split; [change (len _COLORS) with 4; lia|]. left. reflexivity.
Qed.

Lemma segment_banded pt1 pt2 k :
  0 <= k <= 3 -> banded_line c (segment_line c pt1 pt2 k).
Proof.
  intros R. exists pt1, pt2, k.
  split; [change (len _COLORS) with 4; lia|]. right. reflexivity.
Qed.

(** What [self._proj_m[idx]] can raise. *)
Lemma proj_m_getitem_raises idx e :
  proj_m_getitem pm idx = Raises e ->
  e = TypeError "'NoneType' object is not subscriptable" \/
  e = IndexError "self._proj_m".
Proof.
  unfold proj_m_getitem, index. destruct pm as [l|]; [|intros [= <-]; auto].
  destruct (_ && _); [destruct (l !! _)|]; intros [= <-]; auto.
Qed.

(** Loop invariant of the [for] loop: the colour index stays within the
    palette, the thickness index is its complement, only banded lines are
    drawn, and nothing but [self._proj_m[idx]] can raise. *)
Lemma side_loop_invariant idxs color_idx f :
  0 <= color_idx <= 3 ->
  Forall (fun idx => 0 <= idx /\ idx + 1 < len proj) idxs ->
  exists new,
    (side_loop c sd proj pm idxs color_idx (len _COLORS - color_idx) f).1
      = draw_on f new /\
    Forall (banded_line c) new /\
    loop_end (side_loop c sd proj pm idxs color_idx (len _COLORS - color_idx) f).2.
Proof.
  revert color_idx f.
  induction idxs as [|idx rest IH]; intros color_idx f R In.
  - exists []. simpl. rewrite draw_on_nil.
    split; [reflexivity|]. split; [constructor|]. split; [assumption|reflexivity].
  - inversion In as [|? ? [I0 I1] In']; subst.
    destruct (proj_m_getitem pm idx) as [m|e] eqn:Hm.
    + destruct (gt m 5.0) eqn:G.
      * rewrite (side_loop_break idx rest _ _ f m Hm G).
        exists []. simpl. rewrite draw_on_nil.
        split; [reflexivity|]. split; [constructor|].
        split; [assumption|reflexivity].
      * destruct (index_in_range "proj" proj idx) as (pt1 & Hp1 & _); [lia|].
        destruct (index_in_range "proj" proj (idx + 1)) as (pt2 & Hp2 & _); [lia|].
        rewrite (side_loop_draw idx rest color_idx f m pt1 pt2 Hm G Hp1 Hp2 R).
        cbn zeta. pose proof (band_range m) as B.
        set (k := Z.max color_idx (band m)) in *.
        assert (Rk : 0 <= k <= 3) by lia.
        destruct (IH k (draw_on f (ticks c sd pt1 color_idx k
                                   ++ [segment_line c pt1 pt2 k])) Rk In')
          as (new & E & Fa & Le).
        exists ((ticks c sd pt1 color_idx k ++ [segment_line c pt1 pt2 k]) ++ new).
        rewrite E, draw_on_app. split; [reflexivity|]. split; [|exact Le].
        apply Forall_app. split; [|exact Fa].
        apply Forall_app. split; [apply ticks_banded; lia|].
        constructor; [apply segment_banded; lia|constructor].
    + rewrite (side_loop_raise idx rest _ _ f e Hm).
      exists []. simpl. rewrite draw_on_nil.
      split; [reflexivity|]. split; [constructor|].
      apply (proj_m_getitem_raises idx e Hm).
Qed.

Lemma range_in_bounds :
  Forall (fun idx => 0 <= idx /\ idx + 1 < len proj) (range (len proj - 1)).
Proof.
  unfold range. apply Forall_fmap, Forall_forall. intros j Hj.
  apply elem_of_seq in Hj. simpl. lia.
Qed.

Lemma render_side_invariant f :
  exists new,
    (render_side c sd proj pm f).1 = draw_on f new /\
    Forall (banded_line c) new /\
    loop_end (render_side c sd proj pm f).2.
Proof.
  assert (R : 0 <= 0 <= 3) by lia.
  exact (side_loop_invariant (range (len proj - 1)) 0 f R range_in_bounds).
Qed.

(** C8 (amended).  In the rendering loop of a side, at a segment index
    whose distance exceeds the last threshold (5.0 m) the loop ends: no
    segment is drawn for that index or any later one.  Otherwise the colour
    index advances by one, the thickness index steps down by one and a tick
    is drawn for each of the first three thresholds (1.0, 1.5, 3.0 m) that
    the distance exceeds and the colour index has not yet passed; then the
    segment is drawn and the loop goes on.  Exceeding the last threshold
    changes neither index. *)
Theorem distance_bands idx rest color_idx f m pt1 pt2 :
  proj_m_getitem pm idx = Returns m ->
  index "proj" proj idx = Returns pt1 ->
  index "proj" proj (idx + 1) = Returns pt2 ->
  0 <= color_idx <= 3 ->
  side_loop c sd proj pm (idx :: rest) color_idx (len _COLORS - color_idx) f
  = if gt m 5.0
    then (f, Ok (color_idx, len _COLORS - color_idx))
    else let k := Z.max color_idx (band m) in
         side_loop c sd proj pm rest k (len _COLORS - k)
           (draw_on f (ticks c sd pt1 color_idx k ++ [segment_line c pt1 pt2 k])).
Proof.
  intros Hm Hp1 Hp2 R. destruct (gt m 5.0) eqn:G.
  - apply (side_loop_break idx rest _ _ f m Hm G).
  - apply (side_loop_draw idx rest color_idx f m pt1 pt2 Hm G Hp1 Hp2 R).
Qed.

(** C9.  On either side, the rendering loop ends with a colour index
    below the length of the palette and of the threshold table, or with an
    exception that is not an out-of-range access to one of the two tables;
    it never runs out of iterations. *)
Theorem palette_index_in_bounds f :
  match (render_side c sd proj pm f).2 with
  | Ok (color_idx, _) =>
      0 <= color_idx < len _COLORS /\ color_idx < len _DISTAN_M
  | Raise e =>
      e <> IndexError "self._COLORS" /\ e <> IndexError "self._DISTAN_M"
  | OutOfFuel => False
  end.
Proof.
  destruct (render_side_invariant f) as (new & _ & _ & Le).
  destruct (render_side c sd proj pm f).2 as [[color_idx thickness_idx]|e|];
    simpl in Le.
  - change (len _COLORS) with 4. change (len _DISTAN_M) with 4. lia.
  - destruct Le as [-> | ->]; split; discriminate.
  - exact Le.
Qed.

(** C10.  On either side, every line drawn by the rendering loop has a
    thickness of the horizontal or the vertical base thickness plus a
    thickness index that is not negative, and the loop ends with a
    thickness index that is not negative; a step of the index takes one
    off a positive index and leaves any other at zero. *)
Theorem thickness_index_not_negative f :
  (exists new,
     (render_side c sd proj pm f).1 = draw_on f new /\
     Forall (fun cmd => exists pt1 pt2 col t,
                 0 <= t /\
                 (cmd = Line pt1 pt2 col (_HOZ_THICK c + t) \/
                  cmd = Line pt1 pt2 col (_VER_THICK c + t))) new) /\
  match (render_side c sd proj pm f).2 with
  | Ok (_, thickness_idx) => 0 <= thickness_idx
  | _ => True
  end /\
  (forall t, step_thickness t = if t >? 0 then t - 1 else 0).
Proof.
  destruct (render_side_invariant f) as (new & E & Fa & Le).
  split; [|split].
  - exists new. split; [exact E|].
    eapply Forall_impl; [exact Fa|].
    intros cmd (pt1 & pt2 & k & Rk & Hk).
    exists pt1, pt2, (color_at k), (len _COLORS - k).
    split; [lia|exact Hk].
  - destruct (render_side c sd proj pm f).2 as [[color_idx thickness_idx]|e|];
      simpl in Le; [|exact I|exact I].
    destruct Le as [Rk ->]. change (len _COLORS) with 4. lia.
  - intros t. unfold step_thickness. destruct (t >? 0); lia.
Qed.

End Loops.

(** The left side of [six_points]: four segments in the four colours with
    thickness 6, 5, 4, 3 (base 2), a tick at each of the three colour
    changes, and nothing for the fifth segment, which lies beyond 5 m. *)
Example render_six_points :
  render_side default_config LeftSide six_points five_distances blank_frame
  = (draw_on blank_frame
       [Line (306, 360)%Q (306, 359)%Q (0, 0, 255) 6;
        Line (306, 359)%Q (316, 359)%Q (32, 165, 218) 5;
        Line (306, 359)%Q (306, 357)%Q (32, 165, 218) 5;
        Line (306, 357)%Q (316, 357)%Q (0, 255, 255) 4;
        Line (306, 357)%Q (306, 354)%Q (0, 255, 255) 4;
        Line (306, 354)%Q (316, 354)%Q (0, 255, 0) 3;
        Line (306, 354)%Q (306, 350)%Q (0, 255, 0) 3],
     Ok (3, 1)).
Proof. vm_compute. reflexivity. Qed.

(** A distance table shorter than the retained points (one left over from
    an earlier calibration) makes [self._proj_m[idx]] raise: the only way
    the loop can fail. *)
Example render_stale_distances :
  (render_side default_config RightSide six_points (Some [0.5; 1.2]%Q)
               blank_frame).2
  = Raise (IndexError "self._proj_m").
Proof. vm_compute. reflexivity. Qed.

(** C8, witness: the second segment of [six_points], 1.2 m away, reached
    with colour index 0. *)
Lemma distance_bands_witness :
  proj_m_getitem five_distances 1 = Returns 1.2%Q /\
  index "proj" six_points 1 = Returns (306, 359)%Q /\
  index "proj" six_points (1 + 1) = Returns (306, 357)%Q /\
  0 <= 0 <= 3 /\
  side_loop default_config LeftSide six_points five_distances (1 :: [2; 3; 4])
            0 (len _COLORS - 0) blank_frame
  = if gt 1.2 5.0
    then (blank_frame, Ok (0, len _COLORS - 0))
    else let k := Z.max 0 (band 1.2) in
         side_loop default_config LeftSide six_points five_distances [2; 3; 4]
           k (len _COLORS - k)
           (draw_on blank_frame
              (ticks default_config LeftSide (306, 359)%Q 0 k
               ++ [segment_line default_config (306, 359)%Q (306, 357)%Q k])).
Proof.
  assert (Hm : proj_m_getitem five_distances 1 = Returns 1.2%Q) by reflexivity.
  assert (Hp1 : index "proj" six_points 1 = Returns (306, 359)%Q) by reflexivity.
  assert (Hp2 : index "proj" six_points (1 + 1) = Returns (306, 357)%Q)
    by reflexivity.
  assert (R : 0 <= 0 <= 3) by lia.
  split; [exact Hm|]. split; [exact Hp1|]. split; [exact Hp2|]. split; [exact R|].
  exact (distance_bands default_config LeftSide six_points five_distances
           1 [2; 3; 4] 0 blank_frame 1.2%Q (306, 359)%Q (306, 357)%Q
           Hm Hp1 Hp2 R).
Defined.

(** C8, counterexample: over [six_points] the distance passes 1.0, 1.5 and
    3.0 m up to index 3 and passes 5.0 m between index 3 and index 4.
    Including index 4 leaves the colour index at 3 and the thickness index
    at 1: crossing the fourth threshold advances neither. *)
Lemma last_threshold_crossing_does_not_advance :
  let run idxs :=
    (side_loop default_config LeftSide six_points five_distances idxs
               0 (len _COLORS) blank_frame).2 in
  proj_m_getitem five_distances 3 = Returns 4.0%Q /\
  proj_m_getitem five_distances 4 = Returns 6.0%Q /\
  gt 4.0 5.0 = false /\ gt 6.0 5.0 = true /\
  run [0; 1; 2; 3] = Ok (3, 1) /\
  ~ (exists color_idx thickness_idx,
       run [0; 1; 2; 3; 4] = Ok (color_idx, thickness_idx) /\
       3 < color_idx /\ thickness_idx < 1).
Proof.
  cbn zeta. repeat (split; [vm_compute; reflexivity|]).
  intros (color_idx & thickness_idx & E & L & _).
  vm_compute in E. injection E as <- <-. lia.
Qed.

End RenderFacts.

(** ** Termination of draw *)

Module DrawFacts.

(** A block ends in a value or an exception when its parts do. *)
Lemma bind_terminates {S A B} (m : M S A) (k : A -> M S B) s :
  (m s).2 <> OutOfFuel ->
  (forall a s', (k a s').2 <> OutOfFuel) ->
  (bind m k s).2 <> OutOfFuel.
Proof.
  intros Hm Hk. unfold bind.
  destruct (m s) as [s' [a| e| ]]; simpl in *;
    [apply Hk | discriminate | congruence].
Qed.

Lemma in_world_terminates {A} (m : M World A) s :
  (m (world s)).2 <> OutOfFuel -> (in_world m s).2 <> OutOfFuel.
Proof. unfold in_world. destruct (m (world s)); simpl; auto. Qed.

Lemma on_img_terminates {A} (m : M Frame A) s :
  (m (img s)).2 <> OutOfFuel -> (on_img m s).2 <> OutOfFuel.
Proof. unfold on_img. destruct (m (img s)); simpl; auto. Qed.

Ltac terminates_with known :=
  repeat first
    [ known
    | apply lift_not_out_of_fuel
    | discriminate
    | apply bind_terminates; [|intros]
    | apply in_world_terminates
    | apply on_img_terminates
    | match goal with
      | |- ((if ?b then _ else _) _).2 <> OutOfFuel => destruct b
      | |- ((match ?x with Some _ => _ | None => _ end) _).2 <> OutOfFuel =>
          destruct x
      end ].

(** The loop filling [_proj_m] makes at most one iteration per unit of
    distance between the first index and the limit. *)
Lemma proj_m_loop_terminates `{Vision} fuel ppmy limit idx_y increment w :
  1 <= increment ->
  (Z.to_nat (idx_y - limit + 1) < fuel)%nat ->
  (proj_m_loop fuel ppmy limit idx_y increment w).2 <> OutOfFuel.
Proof.
  revert idx_y increment w.
  induction fuel as [|fuel IH]; intros idx_y increment w I F; [lia|].
  simpl. destruct (idx_y >=? limit) eqn:C; [|discriminate].
  apply Z.geb_le in C.
  apply bind_terminates; [destruct (Qeq_bool ppmy 0); discriminate|].
  intros _ w1. apply bind_terminates; [discriminate|].
  intros _ w2. apply IH; lia.
Qed.

Lemma update_params_terminates `{Vision} cam w :
  (update_params cam w).2 <> OutOfFuel.
Proof.
  unfold update_params.
  terminates_with ltac:(apply proj_m_loop_terminates; lia).
Qed.

(** [draw] always comes back: with a value or with an exception. *)
Lemma draw_terminates `{Vision} s : (draw s).2 <> OutOfFuel.
Proof.
  unfold draw, draw_marker, draw_calibrated.
  terminates_with ltac:(apply update_params_terminates).
  - unfold lift_result. rewrite SamplingFacts.sample_curves_retained. discriminate.
  - intros E.
    match type of E with
    | (render_side ?c ?sd ?pr ?pm ?f).2 = _ =>
        destruct (RenderFacts.render_side_invariant c sd pr pm f) as (_ & _ & _ & L)
    end.
    rewrite E in L. exact L.
  - intros E.
    match type of E with
    | (render_side ?c ?sd ?pr ?pm ?f).2 = _ =>
        destruct (RenderFacts.render_side_invariant c sd pr pm f) as (_ & _ & _ & L)
    end.
    rewrite E in L. exact L.
Qed.

(** With no calibration, [draw] still marks a click that was received. *)
Lemma draw_marks_uncalibrated_click :
  let V := fixture_vision (reload_with fixture_cam) in
  let w := (@cb_screen_point V 0.5%Q 0.5%Q fresh_world).1 in
  @draw V {| world := w; img := blank_frame |}
  = ({| world := w;
        img := draw_on blank_frame
                 [Circle (320, 180) 10 (255, 255, 255) 1;
                  Circle (320, 180) 2 (0, 0, 255) (-1)] |}, Ok tt).
Proof. vm_compute. reflexivity. Qed.

End DrawFacts.

(** ** IntrinsicClass.load: the log and the fields *)

Module LoadFacts.
Import IntrinsicClass.

Local Open Scope list_scope.

Lemma adds_only_errors_refl s : adds_only_errors s s.
Proof. exists []. rewrite app_nil_r. split; [reflexivity|constructor]. Qed.

Lemma adds_only_errors_trans s1 s2 s3 :
  adds_only_errors s1 s2 -> adds_only_errors s2 s3 -> adds_only_errors s1 s3.
Proof.
  intros (n1 & E1 & F1) (n2 & E2 & F2). exists (n1 ++ n2).
  rewrite E2, E1, app_assoc. split; [reflexivity|].
  apply Forall_app; split; assumption.
Qed.

Lemma oe_bind {A B} (m : M state A) (k : A -> M state B) :
  only_errors m -> (forall a, only_errors (k a)) -> only_errors (bind m k).
Proof.
  intros Hm Hk s. unfold bind. specialize (Hm s).
  destruct (m s) as [s1 [a| e| ]]; simpl in *; try exact Hm.
  eapply adds_only_errors_trans; [exact Hm|apply Hk].
Qed.

Lemma oe_bind_raises {A B} e (k : A -> M state B) :
  only_errors (bind (lift (Raises e)) k).
Proof. intros s. apply adds_only_errors_refl. Qed.

Lemma oe_lift {A} (r : outcome A) : only_errors (lift (S := state) r).
Proof. intros s. apply adds_only_errors_refl. Qed.

Lemma oe_ret {A} (a : A) : only_errors (ret (S := state) a).
Proof. intros s. apply adds_only_errors_refl. Qed.

Lemma oe_raise {A} e : only_errors (raise (S := state) (A := A) e).
Proof. intros s. apply adds_only_errors_refl. Qed.

Lemma oe_get : only_errors (get (S := state)).
Proof. intros s. apply adds_only_errors_refl. Qed.

Lemma oe_set_self f : only_errors (set_self f).
Proof.
  intros s. exists []. simpl. rewrite app_nil_r. split; [reflexivity|constructor].
Qed.

Lemma oe_printlog_error msg : only_errors (printlog msg "ERROR").
Proof.
  intros s. eexists. split; [reflexivity|].
  constructor; [reflexivity|constructor].
Qed.

Lemma oe_try_except {A} (body : M state A) handler :
  only_errors body -> (forall e, only_errors (handler e)) ->
  only_errors (try_except body handler).
Proof.
  intros Hb Hh s. unfold try_except. specialize (Hb s).
  destruct (body s) as [s1 [a| e| ]]; simpl in *; try exact Hb.
  eapply adds_only_errors_trans; [exact Hb|apply Hh].
Qed.

Ltac only_errors :=
  repeat first
    [ apply oe_bind_raises
    | apply oe_lift | apply oe_ret | apply oe_raise | apply oe_get
    | apply oe_set_self | apply oe_printlog_error
    | apply oe_bind; [|intros]
    | match goal with
      | |- only_errors (if ?b then _ else _) => destruct b
      end ].

Section Load.
Context `{Extern}.
Variable g : gmap string string.

Lemma convert_keys_only_errors keys data : only_errors (convert_keys g data keys).
Proof.
  revert data. induction keys as [|key rest IH]; intros data; simpl.
  - apply oe_ret.
  - apply oe_bind; [|intros d; apply IH].
    unfold convert_key. only_errors.
Qed.

Lemma load_file_only_errors abs_path : only_errors (load_file g abs_path).
Proof.
  unfold load_file. apply oe_bind; [apply oe_lift|intros doc].
  apply oe_bind; [apply convert_keys_only_errors|intros data].
  only_errors.
Qed.

(** X1.  Whatever the file system holds, the module namespace and the prior
    state, every entry that [load] adds to the log has type ERROR: the
    OKGREEN entry "instrinsic configuration loaded" is never written. *)
Theorem load_never_reports_success s : adds_only_errors s (load g s).1.
Proof.
  revert s. change (only_errors (load g)). unfold load. apply oe_try_except.
  - apply oe_bind; [apply oe_get|intros s0].
    destruct (os_path_isfile _);
      [apply load_file_only_errors|apply oe_printlog_error].
  - intros e. unfold load_handler. only_errors.
Qed.

(** X2.  When the calibration file does not exist, [load] returns normally
    after logging one ERROR entry and leaves the instance as it was: fields
    that held values keep them. *)
Theorem load_missing_file_keeps_fields s :
  os_path_isfile (os_path_join (file_path (self s)) (file_name (self s))) = false ->
  (load g s).2 = Ok tt /\
  self (load g s).1 = self s /\
  log (load g s).1 =
    log s ++ [{| log_type := "ERROR";
                 log_msg := "No instrinsic configuration file "
                            +:+ file_name (self s) |}].
Proof.
  intros E. unfold load, try_except, bind, get. simpl. rewrite E.
  repeat split.
Qed.

(** X3.  When the calibration file exists, [load] leaves every field absent,
    whatever the file holds and whatever the fields held before; it returns
    normally exactly when the module namespace binds [FILE_NAME]. *)
Theorem load_existing_file_never_populates s :
  os_path_isfile (os_path_join (file_path (self s)) (file_name (self s))) = true ->
  all_absent (self (load g s).1) /\
  ((load g s).2 = Ok tt <-> is_Some (g !! "FILE_NAME")).
Proof.
  intros E. destruct (IntrinsicFacts.load_present_file g s E) as (s' & -> & A).
  split; [exact A|]. simpl.
  destruct (g !! "FILE_NAME") as [v|]; split; intros X.
  - eauto.
  - reflexivity.
  - discriminate.
  - destruct X as [v X]. discriminate.
Qed.

End Load.

(** X2, witness: a populated instance, no file. *)
Lemma load_missing_file_keeps_fields_witness :
  let s := {| self := populated_intrinsic; log := [] |} in
  @os_path_isfile missing_file
     (@os_path_join missing_file (file_path (self s)) (file_name (self s))) = false /\
  (@load missing_file module_globals s).2 = Ok tt /\
  self (@load missing_file module_globals s).1 = populated_intrinsic.
Proof.
  cbn zeta.
  assert (E : @os_path_isfile missing_file
                (@os_path_join missing_file (file_path populated_intrinsic)
                   (file_name populated_intrinsic)) = false) by reflexivity.
  split; [exact E|].
  destruct (@load_missing_file_keeps_fields missing_file module_globals
              {| self := populated_intrinsic; log := [] |} E) as (R & S & _).
  split; [exact R|exact S].
Defined.

(** X3, witness: a populated instance, run as a script against a
    well-formed file without the four matrix blocks. *)
Lemma load_existing_file_never_populates_witness :
  let E := present_file (Returns (YMap [("image_width", YInt 640)]))
             (fun _ _ _ => Raises (ValueError "cannot reshape"))
             (fun _ _ _ _ => Raises (Exception "cv2")) in
  let s := {| self := populated_intrinsic; log := [] |} in
  @os_path_isfile E (@os_path_join E (file_path (self s)) (file_name (self s))) = true /\
  all_absent (self (@load E script_globals s).1) /\
  (@load E script_globals s).2 = Ok tt.
Proof.
  cbn zeta.
  set (E := present_file (Returns (YMap [("image_width", YInt 640)]))
              (fun _ _ _ => Raises (ValueError "cannot reshape"))
              (fun _ _ _ _ => Raises (Exception "cv2"))).
  assert (F : @os_path_isfile E
                (@os_path_join E (file_path populated_intrinsic)
                   (file_name populated_intrinsic)) = true) by reflexivity.
  split; [exact F|].
  destruct (@load_existing_file_never_populates E script_globals
              {| self := populated_intrinsic; log := [] |} F) as (A & I).
  split; [exact A|]. apply I. vm_compute. eauto.
Defined.

End LoadFacts.

(** ** cb_extrinsic_params: return value and effects *)

Module HandlerFacts.

Local Open Scope list_scope.

Section Handler.
Context `{Vision}.


(** X4.  The handler never lets an exception out, and its return value
    tells only whether the label is known: [False] for every label of the
    camera store, [None] for any other. *)
Theorem handler_return_value label w :
  (cb_extrinsic_params label w).2 =
    Ok (if bool_decide (label ∈ dom (Extrinsic.cams (extrinsic w)))
        then Some false else None).
Proof.
  case_bool_decide as Hin.
  - unfold cb_extrinsic_params, cb_extrinsic_params_with, bind at 1, try_except,
      bind at 1, cb_extrinsic_params_body, bind at 1, get.
    rewrite bool_decide_eq_true_2 by exact Hin.
    unfold bind at 1, call_load.
    destruct (extrinsic_load _ _ _ _) as [e' [[]|e]]; reflexivity.
  - unfold cb_extrinsic_params, cb_extrinsic_params_with, bind at 1, try_except,
      bind at 1, cb_extrinsic_params_body, bind at 1, get.
    rewrite bool_decide_eq_false_2 by exact Hin. reflexivity.
Qed.

End Handler.


End HandlerFacts.

(** ** cb_screen_point: what it stores and what it leaves alone *)

Module PixelFacts.

(** [int(x * n)] for a fraction [x] of a non-negative size [n]. *)
Lemma int_fraction_bounds (x : Q) (n : Z) :
  (0 <= x)%Q -> (x <= 1)%Q -> 0 <= n -> 0 <= int (x * inject_Z n)%Q <= n.
Proof.
  destruct x as [a b]. unfold Qle, int. simpl. intros L U N.
  rewrite Z.mul_1_r in L. rewrite Z.mul_1_r, Z.mul_1_l in U.
  rewrite Pos.mul_1_r. split.
  - apply Z.quot_pos; nia.
  - apply Z.quot_le_upper_bound; nia.
Qed.

Section Click.
Context `{Vision}.

(** The handler, by the state of the camera's entry in the store. *)
Lemma click_outcome x y w :
  let p := set_y_norm (Some y) (set_x_norm (Some x) (waypoint w)) in
  cb_screen_point x y w =
    match Extrinsic.cams (extrinsic w) !! cam_label (waypoint w) with
    | Some (Some cam) =>
        (set_waypoint
           (set_y_img (Some (int (y * inject_Z (Extrinsic.image_size cam).2)%Q))
              (set_x_img (Some (int (x * inject_Z (Extrinsic.image_size cam).1)%Q))
                 p)) w,
         Ok tt)
    | Some None =>
        (add_log {| log_type := "ERROR";
                    log_msg := "error procesing waypoint camera "
                               +:+ cam_label (waypoint w) +:+ " no calibrated" |}
                 (set_waypoint p w), Ok tt)
    | None =>
        (add_log {| log_type := "ERROR";
                    log_msg := "error procesing waypoint "
                               +:+ exn_str (KeyError (cam_label (waypoint w))) |}
                 (set_waypoint p w), Ok tt)
    end.
Proof.
  cbn zeta.
  unfold cb_screen_point, try_except, cb_screen_point_body.
  unfold bind at 1, update_waypoint at 1, modify.
  unfold bind at 1, update_waypoint at 1, modify.
  unfold bind at 1, get. unfold bind at 1, lift, Extrinsic.cams_getitem.
  simpl.
  destruct (Extrinsic.cams (extrinsic w) !! cam_label (waypoint w))
    as [[cam|]|]; reflexivity.
Qed.

(** X7.  A click inside the frame on a calibrated camera stores the
    normalised coordinates and a pixel position within the image; it logs
    nothing and changes nothing else.  The result of the containment test is
    dropped: [incnt] keeps its value. *)
Theorem click_calibrated x y w cam :
  Extrinsic.cams (extrinsic w) !! cam_label (waypoint w) = Some (Some cam) ->
  (0 <= x)%Q -> (x <= 1)%Q -> (0 <= y)%Q -> (y <= 1)%Q ->
  0 <= (Extrinsic.image_size cam).1 -> 0 <= (Extrinsic.image_size cam).2 ->
  exists u v,
    0 <= u <= (Extrinsic.image_size cam).1 /\
    0 <= v <= (Extrinsic.image_size cam).2 /\
    cb_screen_point x y w =
      (set_waypoint
         (set_y_img (Some v)
            (set_x_img (Some u)
               (set_y_norm (Some y) (set_x_norm (Some x) (waypoint w))))) w,
       Ok tt).
Proof.
  intros E X0 X1 Y0 Y1 W0 H0. rewrite click_outcome, E.
  eexists. eexists.
  split; [apply (int_fraction_bounds x _ X0 X1 W0)|].
  split; [apply (int_fraction_bounds y _ Y0 Y1 H0)|].
  reflexivity.
Qed.

(** X6.  Whatever the click and the state of the store (camera calibrated,
    uncalibrated or missing), the handler returns normally, stores the
    normalised coordinates of the click, and leaves alone the extrinsic
    store, the flag [incnt], the configuration and the record of loads. *)
Theorem click_never_raises x y w :
  let r := cb_screen_point x y w in
  r.2 = Ok tt /\
  x_norm (waypoint r.1) = Some x /\ y_norm (waypoint r.1) = Some y /\
  incnt (waypoint r.1) = incnt (waypoint w) /\
  cfg (waypoint r.1) = cfg (waypoint w) /\
  extrinsic r.1 = extrinsic w /\
  load_calls r.1 = load_calls w.
Proof.
  cbn zeta. rewrite click_outcome.
  destruct (Extrinsic.cams (extrinsic w) !! cam_label (waypoint w))
    as [[cam|]|]; repeat split.
Qed.

(** X8.  For a click inside the frame (both coordinates between 0 and 1) on
    a calibrated camera, the stored pixel coordinates lie between 0 and the
    image width, resp. height, both ends included. *)
Theorem click_pixels_within_image x y w cam :
  Extrinsic.cams (extrinsic w) !! cam_label (waypoint w) = Some (Some cam) ->
  (0 <= x)%Q -> (x <= 1)%Q -> (0 <= y)%Q -> (y <= 1)%Q ->
  0 <= (Extrinsic.image_size cam).1 -> 0 <= (Extrinsic.image_size cam).2 ->
  exists u v,
    x_img (waypoint (cb_screen_point x y w).1) = Some u /\
    y_img (waypoint (cb_screen_point x y w).1) = Some v /\
    0 <= u <= (Extrinsic.image_size cam).1 /\
    0 <= v <= (Extrinsic.image_size cam).2.
Proof.
  intros E X0 X1 Y0 Y1 W0 H0. rewrite click_outcome, E. simpl.
  eexists. eexists. split; [reflexivity|]. split; [reflexivity|].
  split; apply int_fraction_bounds; assumption.
Qed.

End Click.

(** X7, witness: a click at the centre of the calibrated fixture leaves the
    log empty and [incnt] down. *)
Lemma click_calibrated_witness :
  let V := fixture_vision (reload_with fixture_cam) in
  Extrinsic.cams (extrinsic calibrated_world)
    !! cam_label (waypoint calibrated_world) = Some (Some fixture_cam) /\
  exists u v,
    0 <= u <= 640 /\ 0 <= v <= 360 /\
    x_img (waypoint (@cb_screen_point V 0.5%Q 0.5%Q calibrated_world).1) = Some u /\
    y_img (waypoint (@cb_screen_point V 0.5%Q 0.5%Q calibrated_world).1) = Some v /\
    incnt (waypoint (@cb_screen_point V 0.5%Q 0.5%Q calibrated_world).1) = false /\
    log (@cb_screen_point V 0.5%Q 0.5%Q calibrated_world).1 = [].
Proof.
  cbn zeta.
  assert (E : Extrinsic.cams (extrinsic calibrated_world)
                !! cam_label (waypoint calibrated_world) = Some (Some fixture_cam))
    by (vm_compute; reflexivity).
  split; [exact E|].
  destruct (@click_calibrated (fixture_vision (reload_with fixture_cam))
              0.5%Q 0.5%Q calibrated_world fixture_cam E)
    as (u & v & U & V & R);
    try (vm_compute; discriminate).
  exists u, v. rewrite R.
  split; [exact U|]. split; [exact V|]. repeat split.
Defined.

(** X8, witness: a click on the right and bottom border of the frame is
    stored one past the last column and row. *)
Lemma click_pixels_within_image_witness :
  let V := fixture_vision (reload_with fixture_cam) in
  exists u v,
    x_img (waypoint (@cb_screen_point V 1%Q 1%Q calibrated_world).1) = Some u /\
    y_img (waypoint (@cb_screen_point V 1%Q 1%Q calibrated_world).1) = Some v /\
    0 <= u <= 640 /\ 0 <= v <= 360.
Proof.
  cbn zeta.
  apply (@click_pixels_within_image (fixture_vision (reload_with fixture_cam))
           1%Q 1%Q calibrated_world fixture_cam);
    first [vm_compute; reflexivity | vm_compute; discriminate].
Defined.

End PixelFacts.

(** ** The cached geometry of draw *)

Module CacheFacts.

Local Open Scope list_scope.

Lemma gtb_pred_geb a b : (a >? b - 1) = (a >=? b).
Proof.
  destruct (a >=? b) eqn:G.
  - apply Z.geb_le in G. apply Z.gtb_lt. lia.
  - rewrite Z.geb_leb in G. apply Z.leb_gt in G.
    rewrite Z.gtb_ltb. apply Z.ltb_ge. lia.
Qed.

(** The loop with the test [>=] visits at least as many indices as the one
    with the test [>]. *)
Lemma sample_indices_length_mono fuel1 fuel2 limit idx_y increment :
  1 <= increment ->
  (Z.to_nat (idx_y - limit + 1) < fuel2)%nat ->
  (length (sample_indices fuel1 limit idx_y increment)
   <= length (sample_indices fuel2 (limit - 1) idx_y increment))%nat.
Proof.
  revert fuel2 idx_y increment.
  induction fuel1 as [|fuel1 IH]; intros fuel2 idx_y increment I F; simpl; [lia|].
  destruct (idx_y >? limit) eqn:C; simpl; [|lia].
  apply Z.gtb_lt in C. destruct fuel2 as [|fuel2]; [lia|]. simpl.
  rewrite (proj2 (Z.gtb_lt _ _)) by lia. simpl.
  apply le_n_S, IH; lia.
Qed.

Section Cache.
Context `{Vision}.

(** The loop that fills [_proj_m] appends the distance of every index it
    visits. *)
Lemma proj_m_loop_appends fuel ppmy limit idx_y increment w l :
  Qeq_bool ppmy 0 = false ->
  1 <= increment ->
  (Z.to_nat (idx_y - limit + 1) < fuel)%nat ->
  _proj_m (waypoint w) = Some l ->
  proj_m_loop fuel ppmy limit idx_y increment w =
    (set_waypoint
       (set_proj_m
          (Some (l ++ (distance_of ppmy
                       <$> sample_indices fuel (limit - 1) idx_y increment)))
          (waypoint w)) w,
     Ok tt).
Proof.
  intros Hq. revert idx_y increment w l.
  induction fuel as [|fuel IH]; intros idx_y increment w l I F Hl; [lia|].
  cbn [proj_m_loop sample_indices]. rewrite gtb_pred_geb.
  destruct (idx_y >=? limit) eqn:C.
  - apply Z.geb_le in C. rewrite Hq.
    unfold bind at 1, ret. unfold bind at 1, update_waypoint at 1, modify.
    erewrite IH; [|lia|lia|simpl; rewrite Hl; reflexivity].
    simpl. rewrite <- app_assoc. reflexivity.
  - destruct w as [e i sb p lc lg]. destruct p. simpl in *. subst.
    rewrite app_nil_r. reflexivity.
Qed.

(** The "Update params" block, for a scale [ppmy] other than zero. *)
Lemma update_params_outcome cam w :
  Qeq_bool (Extrinsic.ppmy cam) 0 = false ->
  update_params cam w = (params_updated cam w, Ok tt).
Proof.
  intros Hq. unfold update_params.
  unfold bind at 1, lift at 1. rewrite RenderFacts.last_threshold.
  cbn [of_outcome].
  unfold bind at 1, update_waypoint at 1, modify.
  unfold bind at 1, get.
  unfold bind at 1, update_waypoint at 1, modify.
  unfold bind at 1, update_waypoint at 1, modify.
  unfold bind at 1.
  erewrite proj_m_loop_appends; [|exact Hq|lia|lia|reflexivity].
  reflexivity.
Qed.

(** An iteration with a zero scale raises: when the loop returns, it has
    appended the distance of every index it visited. *)
Lemma proj_m_loop_returned fuel ppmy limit idx_y increment w w' l :
  1 <= increment ->
  (Z.to_nat (idx_y - limit + 1) < fuel)%nat ->
  _proj_m (waypoint w) = Some l ->
  proj_m_loop fuel ppmy limit idx_y increment w = (w', Ok tt) ->
  w' = set_waypoint
         (set_proj_m
            (Some (l ++ (distance_of ppmy
                         <$> sample_indices fuel (limit - 1) idx_y increment)))
            (waypoint w)) w.
Proof.
  intros I F Hl E. destruct (Qeq_bool ppmy 0) eqn:Hq.
  - destruct fuel as [|fuel]; [lia|].
    cbn [proj_m_loop sample_indices] in *. rewrite gtb_pred_geb.
    destruct (idx_y >=? limit).
    + rewrite Hq in E. discriminate E.
    + injection E as <-. destruct w as [e i sb p lc lg]. destruct p.
      simpl in *. subst. rewrite app_nil_r. reflexivity.
  - rewrite (proj_m_loop_appends fuel ppmy limit idx_y increment w l Hq I F Hl)
      in E.
    congruence.
Qed.

(** The "Update params" block, when it returns. *)
Lemma update_params_returned cam w w' :
  update_params cam w = (w', Ok tt) -> w' = params_updated cam w.
Proof.
  intros E. unfold update_params in E.
  unfold bind at 1, lift at 1 in E. rewrite RenderFacts.last_threshold in E.
  cbn [of_outcome] in E.
  unfold bind at 1, update_waypoint at 1, modify in E.
  unfold bind at 1, get in E.
  unfold bind at 1, update_waypoint at 1, modify in E.
  unfold bind at 1, update_waypoint at 1, modify in E.
  unfold bind at 1 in E.
  match type of E with
  | match proj_m_loop ?f ?q ?lim ?i ?n ?w0 with _ => _ end = _ =>
      destruct (proj_m_loop f q lim i n w0) as [w1 [[]|x| ]] eqn:L;
        try discriminate E;
        apply (proj_m_loop_returned f q lim i n w0 w1 []) in L;
        [|lia|lia|reflexivity]
  end.
  subst w1. injection E as <-. reflexivity.
Qed.

(** What the block has stored when it returns: a far limit, a centre line,
    one distance for each index down to that limit included, and the
    consumer's flag cleared; the cameras and the other flags are as before. *)
Lemma update_params_stores cam w w' :
  update_params cam w = (w', Ok tt) ->
  exists yl l,
    y_limit (waypoint w') = Some yl /\
    _proj_m (waypoint w') = Some l /\
    length l = length (distance_indices cam yl) /\
    is_Some (_cnt_line (waypoint w')) /\
    Extrinsic.update (extrinsic w')
      = <["WaypointSuscriber" := false]> (Extrinsic.update (extrinsic w)) /\
    Extrinsic.cams (extrinsic w') = Extrinsic.cams (extrinsic w) /\
    Extrinsic.mtx (extrinsic w') = Extrinsic.mtx (extrinsic w).
Proof.
  intros E. apply update_params_returned in E. subst w'.
  exists (fresh_y_limit cam),
         (distance_of (Extrinsic.ppmy cam)
          <$> distance_indices cam (fresh_y_limit cam)).
  split; [reflexivity|]. split; [reflexivity|].
  split; [apply length_fmap|]. split; [simpl; eauto|].
  repeat split.
Qed.

End Cache.

Section Table.
Variables (c : Config) (sd : Side) (proj : list Point) (l : list Q).

(** With a distance for every index it visits, the loop ends normally. *)
Lemma side_loop_returns idxs color_idx f :
  0 <= color_idx <= 3 ->
  Forall (fun idx => 0 <= idx /\ idx + 1 < len proj /\ idx < len l) idxs ->
  exists k t,
    (side_loop c sd proj (Some l) idxs color_idx (len _COLORS - color_idx) f).2
    = Ok (k, t).
Proof.
  revert color_idx f.
  induction idxs as [|idx rest IH]; intros color_idx f R In.
  - simpl. eauto.
  - inversion In as [|? ? (I0 & I1 & I2) In']; subst.
    destruct (RenderFacts.index_in_range "self._proj_m" l idx) as (m & Hm & _);
      [lia|].
    change (index "self._proj_m" l idx) with (proj_m_getitem (Some l) idx) in Hm.
    destruct (gt m 5.0) eqn:G.
    + rewrite (RenderFacts.side_loop_break c sd proj (Some l) idx rest _ _ f m Hm G).
      simpl. eauto.
    + destruct (RenderFacts.index_in_range "proj" proj idx) as (pt1 & Hp1 & _);
        [lia|].
      destruct (RenderFacts.index_in_range "proj" proj (idx + 1))
        as (pt2 & Hp2 & _); [lia|].
      rewrite (RenderFacts.side_loop_draw c sd proj (Some l) idx rest color_idx f
                 m pt1 pt2 Hm G Hp1 Hp2 R).
      cbn zeta. pose proof (RenderFacts.band_range m) as B.
      apply IH; [lia|exact In'].
Qed.

Lemma range_within_table :
  len proj - 1 <= len l ->
  Forall (fun idx => 0 <= idx /\ idx + 1 < len proj /\ idx < len l)
         (range (len proj - 1)).
Proof.
  intros L. unfold range. apply Forall_fmap, Forall_forall. intros j Hj.
  apply elem_of_seq in Hj. simpl. lia.
Qed.

Lemma render_side_returns f :
  len proj - 1 <= len l ->
  exists k t, (render_side c sd proj (Some l) f).2 = Ok (k, t).
Proof.
  intros L. unfold render_side.
  assert (R : 0 <= 0 <= 3) by lia.
  exact (side_loop_returns (range (len proj - 1)) 0 f R (range_within_table L)).
Qed.

(** X11.  When the distance table has an entry for every segment of the
    side (at least [len(proj) - 1] entries), the rendering loop of that
    side ends normally: no subscript is out of range. *)
Theorem render_with_full_table f :
  len proj - 1 <= len l ->
  exists k t, (render_side c sd proj (Some l) f).2 = Ok (k, t).
Proof. apply render_side_returns. Qed.

End Table.

(** X12.  A side with fewer than two retained points draws nothing and
    reads no distance: the loop ends at once with the initial indices, even
    when the distance table was never computed. *)
Theorem render_needs_two_points c sd proj pm f :
  len proj <= 1 ->
  render_side c sd proj pm f = (f, Ok (0, len _COLORS)).
Proof.
  intros L. unfold render_side, range.
  replace (Z.to_nat (len proj - 1)) with 0%nat by lia. reflexivity.
Qed.

(** X11, witness: [six_points] with their five distances. *)
Lemma render_with_full_table_witness :
  len six_points - 1 <= len [0.5; 1.2; 2.0; 4.0; 6.0]%Q /\
  exists k t,
    (render_side default_config LeftSide six_points
                 (Some [0.5; 1.2; 2.0; 4.0; 6.0]%Q) blank_frame).2 = Ok (k, t).
Proof.
  assert (L : len six_points - 1 <= len [0.5; 1.2; 2.0; 4.0; 6.0]%Q)
    by (vm_compute; discriminate).
  split; [exact L|].
  exact (render_with_full_table default_config LeftSide six_points
           [0.5; 1.2; 2.0; 4.0; 6.0]%Q blank_frame L).
Defined.

(** X12, witness: one retained point, no distance table. *)
Lemma render_needs_two_points_witness :
  len [(306, 360)%Q] <= 1 /\
  render_side default_config RightSide [(306, 360)%Q] None blank_frame
  = (blank_frame, Ok (0, len _COLORS)).
Proof.
  assert (L : len [(306, 360)%Q] <= 1) by (vm_compute; discriminate).
  split; [exact L|].
  exact (render_needs_two_points default_config RightSide [(306, 360)%Q] None
           blank_frame L).
Defined.

End CacheFacts.

(** ** draw: what it does to the node *)

Module DrawRunFacts.

Local Open Scope list_scope.

Lemma runs_bind {A B} w w1 w2 (m : M DrawState A) (k : A -> M DrawState B) R R' :
  runs w m w1 R -> (forall a, R a -> runs w1 (k a) w2 R') ->
  runs w (bind m k) w2 R'.
Proof.
  intros Hm Hk s Hs. destruct (Hm s Hs) as (W & a & E & Ra).
  unfold bind. destruct (m s) as [s1 r]. simpl in *. subst r.
  apply (Hk a Ra s1 W).
Qed.

Lemma runs_get w : runs w get w (fun s => world s = w).
Proof. intros s Hs. simpl. eauto. Qed.

Lemma runs_ret {A} w (a : A) : runs w (ret a) w (fun _ => True).
Proof. intros s Hs. simpl. eauto. Qed.

Lemma runs_lift {A} w (r : outcome A) a :
  r = Returns a -> runs w (lift r) w (eq a).
Proof. intros -> s Hs. simpl. eauto. Qed.

Lemma runs_lift_result {A} w (r : result A) a :
  r = Ok a -> runs w (lift_result r) w (eq a).
Proof. intros -> s Hs. simpl. eauto. Qed.

Lemma runs_on_img {A} w (m : M Frame A) :
  (forall f, exists a, (m f).2 = Ok a) ->
  runs w (on_img m) w (fun _ => True).
Proof.
  intros Hm s Hs. unfold on_img. destruct (Hm (img s)) as (a & E).
  destruct (m (img s)) as [f' r]. simpl in *. eauto.
Qed.

Lemma runs_in_world {A} w w' (m : M World A) a :
  m w = (w', Ok a) -> runs w (in_world m) w' (fun _ => True).
Proof. intros E s Hs. unfold in_world. rewrite Hs, E. simpl. eauto. Qed.

Lemma ends_bind {A B} w w1 w2 (m : M DrawState A) (k : A -> M DrawState B) R :
  runs w m w1 R -> (forall a, R a -> ends w1 (k a) w2) -> ends w (bind m k) w2.
Proof.
  intros Hm Hk s Hs. destruct (Hm s Hs) as (W & a & E & Ra).
  unfold bind. destruct (m s) as [s1 r]. simpl in *. subst r.
  apply (Hk a Ra s1 W).
Qed.

Lemma ends_keeps {A} w (m : M DrawState A) : keeps_world m -> ends w m w.
Proof. intros K s Hs. rewrite K. exact Hs. Qed.

Lemma fails_bind {A B} w (m : M DrawState A) (k : A -> M DrawState B) :
  fails w m -> fails w (bind m k).
Proof.
  intros Hm s Hs b. unfold bind. specialize (Hm s Hs).
  destruct (m s) as [s1 [a| e| ]]; simpl in *;
    [destruct (Hm a eq_refl)|discriminate|discriminate].
Qed.

Lemma fails_after {A B} w w1 (m : M DrawState A) (k : A -> M DrawState B) R :
  runs w m w1 R -> (forall a, R a -> fails w1 (k a)) -> fails w (bind m k).
Proof.
  intros Hm Hk s Hs. destruct (Hm s Hs) as (W & a & E & Ra).
  unfold bind. destruct (m s) as [s1 r]. simpl in *. subst r.
  apply (Hk a Ra s1 W).
Qed.

Lemma fails_in_world {A} w (m : M World A) :
  (forall a, (m w).2 <> Ok a) -> fails w (in_world m).
Proof.
  intros Hm s Hs a. unfold in_world. rewrite Hs.
  specialize (Hm a). destruct (m w) as [w1 r]. exact Hm.
Qed.

Lemma kw_bind {A B} (m : M DrawState A) (k : A -> M DrawState B) :
  keeps_world m -> (forall a, keeps_world (k a)) -> keeps_world (bind m k).
Proof.
  intros Hm Hk s. unfold bind. specialize (Hm s).
  destruct (m s) as [s1 [a| e| ]]; simpl in *; try exact Hm.
  rewrite Hk. exact Hm.
Qed.

Lemma kw_lift {A} (r : outcome A) : keeps_world (lift r).
Proof. intros s. reflexivity. Qed.

Lemma kw_lift_result {A} (r : result A) : keeps_world (lift_result r).
Proof. intros s. reflexivity. Qed.

Lemma kw_on_img {A} (m : M Frame A) : keeps_world (on_img m).
Proof. intros s. unfold on_img. destruct (m (img s)). reflexivity. Qed.

Lemma kw_get : keeps_world get.
Proof. intros s. reflexivity. Qed.

Lemma kw_ret {A} (a : A) : keeps_world (ret a).
Proof. intros s. reflexivity. Qed.

Ltac keeps_world :=
  repeat first
    [ apply kw_lift | apply kw_lift_result | apply kw_on_img
    | apply kw_get | apply kw_ret
    | apply kw_bind; [|intros] ].

(** The marker: two circles at the stored click, if there is one. *)
Lemma draw_marker_outcome `{Vision} s :
  draw_marker s =
    ({| world := world s;
        img := draw_on (img s)
                 (marker_cmds (waypoint (world s)) (shape (img s))) |}, Ok tt).
Proof.
  unfold draw_marker, bind at 1, get, marker_cmds.
  destruct (x_norm (waypoint (world s))) as [x|],
           (y_norm (waypoint (world s))) as [y|];
    try (destruct s; rewrite RenderFacts.draw_on_nil; reflexivity).
  unfold bind, on_img, emit, modify, draw_on. simpl.
  rewrite <- app_assoc. reflexivity.
Qed.

Lemma runs_draw_marker `{Vision} w : runs w draw_marker w (fun _ => True).
Proof. intros s Hs. rewrite draw_marker_outcome. simpl. eauto. Qed.

(** A side retains at most one point per sampled index. *)
Lemma retained_length `{Vision} e cam distord A B C idxs :
  (length (retained e cam distord A B C false idxs) <= length idxs)%nat.
Proof.
  unfold retained. rewrite length_fmap. apply SamplingFacts.retain_while_length.
Qed.

(** The distance table has an entry for every sampled index. *)
Lemma sampled_within_table cam yl :
  (length (sampled_indices cam yl) <= length (distance_indices cam yl))%nat.
Proof.
  unfold sampled_indices, distance_indices.
  apply CacheFacts.sample_indices_length_mono; lia.
Qed.

Section Draw.
Context `{Vision}.

(** [draw] up to the point where the camera is known to be calibrated. *)
Lemma draw_reaches_calibrated w cam flag w' :
  calibrated_with cam flag w ->
  ends w (draw_calibrated cam) w' -> ends w draw w'.
Proof.
  intros (Hc & [v Hm] & Hf) Hd. unfold draw.
  eapply ends_bind; [apply runs_draw_marker|intros _ _].
  eapply ends_bind; [apply runs_get|intros s0 Hs0].
  eapply ends_bind.
  { eapply runs_lift. rewrite Hs0. unfold Extrinsic.cams_getitem.
    rewrite Hc. reflexivity. }
  intros ? <-. rewrite Hs0, Hm. exact Hd.
Qed.

(** [draw] up to the same point, when what follows raises. *)
Lemma draw_fails_calibrated w cam flag :
  calibrated_with cam flag w ->
  fails w (draw_calibrated cam) -> fails w draw.
Proof.
  intros (Hc & [v Hm] & Hf) Hd. unfold draw.
  eapply fails_after; [apply runs_draw_marker|intros _ _].
  eapply fails_after; [apply runs_get|intros s0 Hs0].
  eapply fails_after.
  { eapply runs_lift. rewrite Hs0. unfold Extrinsic.cams_getitem.
    rewrite Hc. reflexivity. }
  intros ? <-. rewrite Hs0, Hm. exact Hd.
Qed.

(** With the flag raised and an "Update params" block that returns, [draw]
    leaves the node that the block left, with the coefficients set, however
    the rest of it ends. *)
Lemma draw_calibrated_refresh w cam w1 :
  calibrated_with cam true w ->
  update_params cam w = (w1, Ok tt) ->
  ends w (draw_calibrated cam)
       (set_waypoint (set_coefficients cam (waypoint w1)) w1).
Proof.
  intros (Hc & [v Hm] & Hf) Hu. unfold draw_calibrated.
  eapply ends_bind; [apply runs_get|intros s1 Hs1].
  eapply ends_bind; [|intros _ _].
  { destruct (negb _);
      [apply runs_on_img; intros f; eexists; reflexivity|apply runs_ret]. }
  eapply ends_bind.
  { eapply runs_lift. rewrite Hs1. unfold Extrinsic.update_getitem.
    rewrite Hf. reflexivity. }
  intros ? <-.
  eapply ends_bind; [eapply runs_in_world; exact Hu|intros _ _].
  eapply ends_bind; [eapply runs_in_world; reflexivity|intros _ _].
  apply ends_keeps. keeps_world.
Qed.

(** With the flag raised and an "Update params" block that raises, [draw]
    raises. *)
Lemma draw_calibrated_fails w cam :
  calibrated_with cam true w ->
  (forall a, (update_params cam w).2 <> Ok a) ->
  fails w (draw_calibrated cam).
Proof.
  intros (Hc & [v Hm] & Hf) Hu. unfold draw_calibrated.
  eapply fails_after; [apply runs_get|intros s1 Hs1].
  eapply fails_after; [|intros _ _].
  { destruct (negb _);
      [apply runs_on_img; intros f; eexists; reflexivity|apply runs_ret]. }
  eapply fails_after.
  { eapply runs_lift. rewrite Hs1. unfold Extrinsic.update_getitem.
    rewrite Hf. reflexivity. }
  intros ? <-.
  apply fails_bind, fails_in_world, Hu.
Qed.

(** A [draw] that finds the flag raised and returns has run the "Update
    params" block to its end. *)
Lemma draw_returned_refresh s cam :
  calibrated_with cam true (world s) ->
  (draw s).2 = Ok tt ->
  exists w1,
    update_params cam (world s) = (w1, Ok tt) /\
    world (draw s).1 = set_waypoint (set_coefficients cam (waypoint w1)) w1.
Proof.
  intros C R.
  destruct (update_params cam (world s)) as [w1 r] eqn:U.
  destruct r as [[]|e| ].
  - exists w1. split; [reflexivity|].
    exact (draw_reaches_calibrated (world s) cam true _ C
             (draw_calibrated_refresh (world s) cam w1 C U) s eq_refl).
  - exfalso.
    apply (draw_fails_calibrated (world s) cam true C
             (draw_calibrated_fails (world s) cam C
                ltac:(intros a; rewrite U; discriminate)) s eq_refl tt R).
  - exfalso.
    apply (draw_fails_calibrated (world s) cam true C
             (draw_calibrated_fails (world s) cam C
                ltac:(intros a; rewrite U; discriminate)) s eq_refl tt R).
Qed.


(** Without calibration [draw] stops after the marker. *)
Lemma draw_uncalibrated_outcome s :
  uncalibrated (world s) ->
  draw s =
    ({| world := world s;
        img := draw_on (img s)
                 (marker_cmds (waypoint (world s)) (shape (img s))) |}, Ok tt).
Proof.
  intros U. unfold uncalibrated in U.
  unfold draw, bind at 1. rewrite draw_marker_outcome.
  unfold bind at 1, get. unfold bind at 1, lift, Extrinsic.cams_getitem.
  cbn [world]. cbn [world] in U.
  destruct (Extrinsic.cams (extrinsic (world s)) !! cam_label (waypoint (world s)))
    as [[cam|]|]; cbn [of_outcome]; [rewrite U|..]; try reflexivity.
  destruct U.
Qed.

(** The marker of a click inside the frame lies within the frame. *)
Lemma marker_cmds_in_frame p shape :
  click_in_frame p -> 0 <= shape.1 -> 0 <= shape.2 ->
  marker_in_frame p shape (marker_cmds p shape).
Proof.
  unfold click_in_frame, marker_in_frame, marker_cmds. intros F R C.
  destruct (x_norm p) as [x|], (y_norm p) as [y|]; try reflexivity.
  destruct F as [[X0 X1] [Y0 Y1]].
  eexists. eexists.
  split; [apply (PixelFacts.int_fraction_bounds x _ X0 X1 C)|].
  split; [apply (PixelFacts.int_fraction_bounds y _ Y0 Y1 R)|].
  reflexivity.
Qed.

(** X13.  While the camera has no extrinsic calibration, or the store has
    no camera matrix, [draw] leaves the node as it was: the cache is not
    computed and the flag stays.  When the stored click lies inside the
    frame (or there is none), [draw] returns normally having drawn only the
    click marker: nothing without a click, else two circles of radius 10 and 2
    around one centre within the frame. *)
Theorem draw_without_calibration s :
  uncalibrated (world s) ->
  world (draw s).1 = world s /\
  (click_in_frame (waypoint (world s)) ->
   0 <= (shape (img s)).1 -> 0 <= (shape (img s)).2 ->
   (draw s).2 = Ok tt /\
   exists cmds,
     img (draw s).1 = draw_on (img s) cmds /\
     marker_in_frame (waypoint (world s)) (shape (img s)) cmds).
Proof.
  intros U. rewrite (draw_uncalibrated_outcome s U).
  split; [reflexivity|]. intros F R C.
  split; [reflexivity|]. eexists. split; [reflexivity|].
  apply marker_cmds_in_frame; assumption.
Qed.


(** X15.  A [draw] that finds the consumer's flag raised on a calibrated
    camera and returns has recomputed the cache: it has stored a far limit
    and a distance table with one entry per index down to that limit
    included, and it has cleared its own flag; the other flags of the
    registry and the cameras are not touched. *)
Theorem draw_refreshes_cache s cam :
  calibrated_with cam true (world s) ->
  (draw s).2 = Ok tt ->
  let w := world s in
  let w' := world (draw s).1 in
  Extrinsic.update (extrinsic w')
    = <["WaypointSuscriber" := false]> (Extrinsic.update (extrinsic w)) /\
  Extrinsic.cams (extrinsic w') = Extrinsic.cams (extrinsic w) /\
  exists yl l,
    y_limit (waypoint w') = Some yl /\
    _proj_m (waypoint w') = Some l /\
    length l = length (distance_indices cam yl).
Proof.
  intros C R. cbn zeta.
  destruct (draw_returned_refresh s cam C R) as (w1 & U & ->).
  destruct (CacheFacts.update_params_stores cam (world s) w1 U)
    as (yl & l & Y & P & L & _ & F & K & _).
  split; [exact F|]. split; [exact K|].
  exists yl, l. split; [exact Y|]. split; [exact P|exact L].
Qed.

(** X16.  The loop that fills the distance table tests [idx_y >= limit]
    where the sampling loop tests [idx_y > limit], over the same indices:
    whenever the "Update params" block returns, the table it stored has an
    entry for every point that either side retains up to the far limit it
    stored, so rendering either side against it ends without an index
    error. *)
Theorem refreshed_table_covers_sides cam w w' :
  update_params cam w = (w', Ok tt) ->
  exists yl l,
    y_limit (waypoint w') = Some yl /\
    _proj_m (waypoint w') = Some l /\
    forall e p L R,
      sample_curves e cam p yl = Ok (L, R) ->
      (length L <= length l)%nat /\ (length R <= length l)%nat /\
      forall c f,
        (exists k t, (render_side c LeftSide L (Some l) f).2 = Ok (k, t)) /\
        (exists k t, (render_side c RightSide R (Some l) f).2 = Ok (k, t)).
Proof.
  intros U.
  destruct (CacheFacts.update_params_stores cam w w' U)
    as (yl & l & Y & P & Hl & _).
  exists yl, l. split; [exact Y|]. split; [exact P|].
  intros e p L R S. rewrite SamplingFacts.sample_curves_retained in S.
  assert (EL : L = retained e cam (distord_lines p) (AL p) (BL p) (CL p) false
                     (sampled_indices cam yl)) by congruence.
  assert (ER : R = retained e cam (distord_lines p) (AR p) (BR p) (CR p) false
                     (sampled_indices cam yl)) by congruence.
  clear S. subst L R.
  pose proof (sampled_within_table cam yl) as T.
  pose proof (retained_length e cam (distord_lines p) (AL p) (BL p) (CL p)
                (sampled_indices cam yl)) as HL.
  pose proof (retained_length e cam (distord_lines p) (AR p) (BR p) (CR p)
                (sampled_indices cam yl)) as HR.
  split; [lia|]. split; [lia|].
  intros c f. split; apply CacheFacts.render_side_returns; unfold len; lia.
Qed.

(** X10.  Whatever the registry held before, [__init__] raises the
    consumer's flag, so the first [draw] on a calibrated camera enters the
    "Update params" block: when that [draw] returns, the far limit, the
    centre line and the distance table are in place and the flag is
    cleared. *)
Theorem first_draw_after_init c w cam f :
  Extrinsic.cams (extrinsic w) !! "C" = Some (Some cam) ->
  is_Some (Extrinsic.mtx (extrinsic w)) ->
  let s := {| world := (WaypointSuscriber_init c w).1; img := f |} in
  Extrinsic.update (extrinsic (world s)) !! "WaypointSuscriber" = Some true /\
  ((draw s).2 = Ok tt ->
   is_Some (y_limit (waypoint (world (draw s).1))) /\
   is_Some (_cnt_line (waypoint (world (draw s).1))) /\
   is_Some (_proj_m (waypoint (world (draw s).1))) /\
   Extrinsic.update (extrinsic (world (draw s).1)) !! "WaypointSuscriber"
     = Some false).
Proof.
  intros Hc Hm s.
  assert (C : calibrated_with cam true (world s)).
  { split; [exact Hc|]. split; [exact Hm|]. apply lookup_insert_eq. }
  split; [apply C|]. intros R.
  destruct (draw_returned_refresh s cam C R) as (w1 & U & ->).
  destruct (CacheFacts.update_params_stores cam (world s) w1 U)
    as (yl & l & Y & P & _ & L & F & _).
  split; [simpl; rewrite Y; eauto|]. split; [exact L|].
  split; [simpl; rewrite P; eauto|].
  simpl. rewrite F. apply lookup_insert_eq.
Qed.

End Draw.

(** X13, witness: the click of the freshly started node is marked. *)
Lemma draw_without_calibration_witness :
  let V := fixture_vision (reload_with fixture_cam) in
  let w := (@cb_screen_point V 0.5%Q 0.5%Q fresh_world).1 in
  let s := {| world := w; img := blank_frame |} in
  uncalibrated w /\ click_in_frame (waypoint w) /\
  (@draw V s).2 = Ok tt /\ world (@draw V s).1 = w /\
  exists cmds,
    img (@draw V s).1 = draw_on blank_frame cmds /\
    marker_in_frame (waypoint w) (360, 640) cmds.
Proof.
  cbn zeta.
  set (V := fixture_vision (reload_with fixture_cam)).
  set (w := (@cb_screen_point V 0.5%Q 0.5%Q fresh_world).1).
  assert (U : uncalibrated w) by (vm_compute; exact I).
  assert (F : click_in_frame (waypoint w)).
  { vm_compute. repeat split; discriminate. }
  split; [exact U|]. split; [exact F|].
  destruct (@draw_without_calibration V {| world := w; img := blank_frame |} U)
    as (K & D).
  destruct (D F) as (R & M); [vm_compute; discriminate..|].
  split; [exact R|]. split; [exact K|exact M].
Defined.


(** X15, witness: the flagged node in front of [fixture_cam]. *)
Lemma draw_refreshes_cache_witness :
  let V := fixture_vision (reload_with fixture_cam) in
  let s := {| world := flagged_world; img := blank_frame |} in
  calibrated_with fixture_cam true flagged_world /\
  (@draw V s).2 = Ok tt /\
  Extrinsic.update (extrinsic (world (@draw V s).1)) !! "WaypointSuscriber"
    = Some false /\
  exists yl l,
    y_limit (waypoint (world (@draw V s).1)) = Some yl /\
    _proj_m (waypoint (world (@draw V s).1)) = Some l /\
    length l = length (distance_indices fixture_cam yl).
Proof.
  cbn zeta.
  assert (C : calibrated_with fixture_cam true flagged_world).
  { split; [vm_compute; reflexivity|]. split; [vm_compute; eauto|].
    vm_compute; reflexivity. }
  assert (R : (@draw (fixture_vision (reload_with fixture_cam))
                 {| world := flagged_world; img := blank_frame |}).2 = Ok tt)
    by (vm_compute; reflexivity).
  split; [exact C|]. split; [exact R|].
  destruct (@draw_refreshes_cache (fixture_vision (reload_with fixture_cam))
              {| world := flagged_world; img := blank_frame |} fixture_cam C R)
    as (U & _ & T).
  split; [rewrite U; apply lookup_insert_eq|exact T].
Defined.

(** X10, witness: a consumer constructed on the calibrated node. *)
Lemma first_draw_after_init_witness :
  let V := fixture_vision (reload_with fixture_cam) in
  let s := {| world := (WaypointSuscriber_init default_config calibrated_world).1;
              img := blank_frame |} in
  Extrinsic.cams (extrinsic calibrated_world) !! "C" = Some (Some fixture_cam) /\
  is_Some (Extrinsic.mtx (extrinsic calibrated_world)) /\
  (@draw V s).2 = Ok tt /\
  is_Some (_proj_m (waypoint (world (@draw V s).1))) /\
  Extrinsic.update (extrinsic (world (@draw V s).1)) !! "WaypointSuscriber"
    = Some false.
Proof.
  cbn zeta.
  assert (Hc : Extrinsic.cams (extrinsic calibrated_world) !! "C"
               = Some (Some fixture_cam)) by (vm_compute; reflexivity).
  assert (Hm : is_Some (Extrinsic.mtx (extrinsic calibrated_world)))
    by (vm_compute; eauto).
  assert (R : (@draw (fixture_vision (reload_with fixture_cam))
                 {| world := (WaypointSuscriber_init default_config
                                calibrated_world).1;
                    img := blank_frame |}).2 = Ok tt)
    by (vm_compute; reflexivity).
  split; [exact Hc|]. split; [exact Hm|]. split; [exact R|].
  destruct (@first_draw_after_init (fixture_vision (reload_with fixture_cam))
              default_config calibrated_world fixture_cam blank_frame Hc Hm)
    as (_ & D).
  destruct (D R) as (_ & _ & P & F). split; [exact P|exact F].
Defined.

(** X16, witness: the flagged node in front of [fixture_cam]; both sides of
    a consumer turning with curvature 1 fit the table. *)
Lemma refreshed_table_covers_sides_witness :
  let V := fixture_vision (reload_with fixture_cam) in
  let w' := (@update_params V fixture_cam flagged_world).1 in
  @update_params V fixture_cam flagged_world = (w', Ok tt) /\
  exists yl l,
    y_limit (waypoint w') = Some yl /\
    _proj_m (waypoint w') = Some l /\
    forall L R,
      @sample_curves V (extrinsic w') fixture_cam turning_consumer yl = Ok (L, R) ->
      (length L <= length l)%nat /\ (length R <= length l)%nat.
Proof.
  cbn zeta.
  assert (E : @update_params (fixture_vision (reload_with fixture_cam))
                fixture_cam flagged_world
              = ((@update_params (fixture_vision (reload_with fixture_cam))
                    fixture_cam flagged_world).1, Ok tt)).
  { rewrite (@CacheFacts.update_params_outcome
               (fixture_vision (reload_with fixture_cam))
               fixture_cam flagged_world eq_refl).
    reflexivity. }
  split; [exact E|].
  destruct (@refreshed_table_covers_sides
              (fixture_vision (reload_with fixture_cam))
              fixture_cam flagged_world _ E) as (yl & l & Y & P & T).
  exists yl, l. split; [exact Y|]. split; [exact P|].
  intros L R S. destruct (T _ _ L R S) as (A & B & _). split; [exact A|exact B].
Defined.

End DrawRunFacts.

(** ** The sampled indices, draw_in_proj and the stream switches *)

Module MoreFacts.

(** Position [k] of the index sequence started at [idx_y] with the first
    step [increment]. *)
Lemma sample_indices_position fuel limit idx_y increment (k : nat) v :
  sample_indices fuel limit idx_y increment !! k = Some v ->
  2 * v = 2 * idx_y - Z.of_nat k * (2 * increment + Z.of_nat k - 1) /\
  limit < v.
Proof.
  revert idx_y increment k.
  induction fuel as [|fuel IH]; intros idx_y increment k; simpl; [discriminate|].
  destruct (idx_y >? limit) eqn:C; [|discriminate].
  apply Z.gtb_lt in C. destruct k as [|k]; simpl.
  - intros [= <-]. lia.
  - intros E. destruct (IH _ _ _ E) as [P L]. split; [nia|exact L].
Qed.

(** X9.  The sampled indices thin out with the distance: the index at
    position [k] lies [k * (k + 1) / 2] below the first one, and every
    sampled index lies strictly above the far limit. *)
Theorem sampled_index_position cam yl (k : nat) v :
  sampled_indices cam yl !! k = Some v ->
  2 * v = 2 * first_idx_y cam - Z.of_nat k * (Z.of_nat k + 1) /\
  far_limit cam yl < v.
Proof.
  unfold sampled_indices. intros E.
  destruct (sample_indices_position _ _ _ _ _ _ E) as [P L].
  split; [lia|exact L].
Qed.

(** X9, witness: position 13 in front of [fixture_cam] is the index -131. *)
Lemma sampled_index_position_witness :
  sampled_indices fixture_cam 200 !! 13%nat = Some (-131) /\
  2 * (-131) = 2 * first_idx_y fixture_cam - Z.of_nat 13 * (Z.of_nat 13 + 1) /\
  far_limit fixture_cam 200 < -131.
Proof.
  assert (E : sampled_indices fixture_cam 200 !! 13%nat = Some (-131))
    by (vm_compute; reflexivity).
  split; [exact E|].
  exact (sampled_index_position fixture_cam 200 13 (-131) E).
Defined.

(** X17.  [draw_in_proj] cannot run: its first statement reads [self._mtx]
    when an image is given and [self.mono] when none is, neither of which a
    [WaypointSuscriber] has, so every call raises [AttributeError] before
    anything is warped, drawn or shown. *)
Theorem draw_in_proj_always_raises `{Imaging} p img_src win_name shown :
  draw_in_proj p img_src win_name shown =
    (shown, Raise (AttributeError "WaypointSuscriber"
                     (match img_src with
                      | Some _ => "_mtx"
                      | None => "mono"
                      end))).
Proof. destruct img_src; reflexivity. Qed.

(** The two switches after a sequence of messages. *)
Lemma deliver_all r msgs :
  foldl deliver r msgs =
    {| stream_stitch := xorb (stream_stitch r) (Nat.odd (count_stitch msgs));
       stream_rear_cam := xorb (stream_rear_cam r) (Nat.odd (count_rear_cam msgs)) |}.
Proof.
  revert r. induction msgs as [|m rest IH]; intros r.
  - destruct r as [a b]. simpl. rewrite !xorb_false_r. reflexivity.
  - simpl. rewrite IH. unfold count_stitch, count_rear_cam.
    destruct m as [data|data]; simpl;
      rewrite ?Nat.odd_succ, <- ?Nat.negb_odd;
      f_equal;
      repeat match goal with
             | |- context [Nat.odd ?n] => destruct (Nat.odd n)
             | |- context [stream_stitch r] => destruct (stream_stitch r)
             | |- context [stream_rear_cam r] => destruct (stream_rear_cam r)
             end; reflexivity.
Qed.

(** X18.  Each stream switch depends only on how many messages its topic
    has delivered, not on their payloads or on the other topic: starting
    from [Robot.__init__], a switch is on exactly when that number is odd. *)
Theorem switches_count_messages msgs :
  stream_rear_cam (foldl deliver Robot_init msgs) = Nat.odd (count_rear_cam msgs) /\
  stream_stitch (foldl deliver Robot_init msgs) = Nat.odd (count_stitch msgs).
Proof. rewrite deliver_all. split; reflexivity. Qed.

End MoreFacts.
